(** * The G Suite collector of paws-collector: window scheduling, quota
      back-off and record framing

    Shallow embedding of [collectors/gsuite/collector.js] (class
    [GsuiteCollector]) and proofs of the properties its specification states.

    Conventions of the embedding
    - An instant is a number of milliseconds since the Unix epoch ([Z]),
      which is what a [moment] object wraps.
    - A JavaScript string that is used as a date is kept as [Iso ms] when
      [moment] parses it to the instant [ms] (every string made by
      [toISOString] is of that kind) and as [Raw s] when [moment] cannot parse
      it.  A field that may be [null] is an [option].
    - [moment()] reads the wall clock.  Every call site of [moment()] is run at
      most once per invocation, so the readings are passed in, one per call
      site.
    - Functions of libraries (moment, google-auth-library, al-collector-js,
      the JSON built-ins) are either modelled from their documentation (module
      [Moment]) or taken as section variables. *)

From Stdlib Require Import ZArith QArith.QArith_base Lia Ascii.
From stdpp Require Import base gmap strings list.

Local Open Scope Z_scope.

(** ** JavaScript values *)

#[local] Unset Elimination Schemes.

Inductive value :=
| VUndefined
| VNull
| VBool (b : bool)
| VNum (q : Q)
| VStr (s : string)
| VArr (items : list value)
| VObj (fields : list (string * value)).

#[local] Set Elimination Schemes.

(** Truthiness, as tested by [if (v)] and [v ? a : b]. *)
Definition truthy (v : value) : bool :=
  match v with
  | VUndefined | VNull => false
  | VBool b => b
  | VNum q => negb (Qeq_bool q (0 # 1))
  | VStr s => negb (String.eqb s EmptyString)
  | VArr _ | VObj _ => true
  end.

(** A string read as a date. *)
Inductive datestr :=
| Iso (ms : Z)
| Raw (s : string).

Definition datestr_truthy (d : option datestr) : bool :=
  match d with
  | None => false
  | Some (Iso _) => true
  | Some (Raw s) => negb (String.eqb s EmptyString)
  end.

(** ** The part of moment.js the collector uses *)

Module Moment.

(** A moment is valid and wraps an instant, or it is invalid. *)
Definition t := option Z.

Inductive unit_of_time := Seconds | Minutes | Hours.

Definition unit_ms (u : unit_of_time) : Z :=
  match u with
  | Seconds => 1000
  | Minutes => 60000
  | Hours => 3600000
  end.

Definition day_ms : Z := 86400000.

(** [moment()] at clock reading [clock]. *)
Definition now (clock : Z) : t := Some clock.

(** [moment(s)] for a string or [null]. *)
Definition parse (s : option datestr) : t :=
  match s with
  | Some (Iso ms) => Some ms
  | Some (Raw _) | None => None
  end.

(** [m.toISOString()]: [null] for an invalid moment. *)
Definition toISOString (m : t) : option datestr :=
  match m with
  | Some ms => Some (Iso ms)
  | None => None
  end.

(** [m.add(n, u)] and [m.subtract(n, u)]; an invalid moment stays invalid. *)
Definition add (m : t) (n : Z) (u : unit_of_time) : t :=
  match m with
  | Some ms => Some (ms + n * unit_ms u)
  | None => None
  end.

Definition subtract (m : t) (n : Z) (u : unit_of_time) : t :=
  match m with
  | Some ms => Some (ms - n * unit_ms u)
  | None => None
  end.

Definition isAfter (a b : t) : bool :=
  match a, b with
  | Some x, Some y => y <? x
  | _, _ => false
  end.

Definition isBefore (a b : t) : bool :=
  match a, b with
  | Some x, Some y => x <? y
  | _, _ => false
  end.

(** [a.diff(b, u)]: the difference in whole units, truncated toward zero;
    [None] stands for [NaN], the result when either moment is invalid. *)
Definition diff (a b : t) (u : unit_of_time) : option Z :=
  match a, b with
  | Some x, Some y => Some (Z.quot (x - y) (unit_ms u))
  | _, _ => None
  end.

(** [d > k] for a number [d] that may be [NaN]. *)
Definition gt (d : option Z) (k : Z) : bool :=
  match d with
  | Some v => k <? v
  | None => false
  end.

(** [m.endOf('day')] for a process whose local time is [tz] milliseconds
    ahead of UTC: the last millisecond of the local day of [m]. *)
Definition endOf_day (tz : Z) (m : t) : t :=
  match m with
  | Some ms => Some ((ms + tz) / day_ms * day_ms + day_ms - 1 - tz)
  | None => None
  end.

End Moment.

(** ** Collection state *)

Record state := {
  application : value;
  since : option datestr;
  until : option datestr;
  nextPage : option string;  (* [None]: null, undefined or no such key *)
  apiQuotaResetDate : option datestr;
  poll_interval_sec : Z
}.

(** What the collector object and the process environment provide. *)
Record collector := {
  pollInterval : Z;           (* [this.pollInterval] *)
  secret : option string;     (* [this.secret] *)
  clientId : option string    (* [this.clientId] *)
}.

(** [_getNextCollectionState(curState)], with the clock reading of its
    [moment()]. *)
Definition _getNextCollectionState (this : collector) (clock : Z)
    (curState : state) : state :=
  let nowMoment := Moment.now clock in
  let curUntilMoment := Moment.parse (until curState) in
  let nextSinceTs :=
    if Moment.isAfter curUntilMoment nowMoment
    then Moment.toISOString nowMoment
    else until curState in
  let nextUntilMoment :=
    if Moment.gt (Moment.diff nowMoment (Moment.parse nextSinceTs) Moment.Hours) 24
    then Moment.add (Moment.parse nextSinceTs) 24 Moment.Hours
    else if Moment.gt (Moment.diff nowMoment (Moment.parse nextSinceTs) Moment.Hours) 1
    then Moment.add (Moment.parse nextSinceTs) 1 Moment.Hours
    else Moment.add (Moment.parse nextSinceTs) (pollInterval this) Moment.Seconds in
  let nextPollInterval :=
    if Moment.gt (Moment.diff nowMoment nextUntilMoment Moment.Seconds) (pollInterval this)
    then 1
    else pollInterval this in
  {| application := application curState;
     since := nextSinceTs;
     until := Moment.toISOString nextUntilMoment;
     nextPage := None;
     apiQuotaResetDate := None;
     poll_interval_sec := nextPollInterval |}.

(** [_getNextCollectionStateWithNextPage({application, since, until}, nextPage)]. *)
Definition _getNextCollectionStateWithNextPage (curState : state)
    (nextPage' : option string) : state :=
  {| application := application curState;
     since := since curState;
     until := until curState;
     nextPage := nextPage';
     apiQuotaResetDate := None;
     poll_interval_sec := 1 |}.

(** ** Exceptions, errors and promises *)

Inductive exception :=
| Error (msg : string)
| SyntaxError
| TypeError.

(** A call that returns or throws. *)
Inductive attempt (A : Type) :=
| Returns (a : A)
| Raises (e : exception).

Arguments Returns {A} a.
Arguments Raises {A} e.

(** The error object a rejected upstream call carries: [errors] lists the
    [reason] of each entry of [error.errors], and is [None] when the error has
    no such array. *)
Record api_error := {
  errors : option (list string);
  message : string
}.

Definition dailyLimitExceeded : string := "dailyLimitExceeded".

(** ** Process environment *)

(** What [JSON.parse] makes of an environment variable: it throws a
    [SyntaxError] when the variable is unset or is not JSON text. *)
Inductive json_parse_result :=
| NotJson
| Parsed (v : value).

(** The environment variables the collector reads ([None]: unset), the
    target list as [JSON.parse] reads it, the page budget as the number it
    spells, and the time zone of the process. *)
Record environment := {
  paws_collection_start_ts : option datestr;
  paws_collector_param_string_1 : option string;
  paws_collector_param_string_2 : json_parse_result;
  paws_max_pages_per_invocation : option nat;
  tz_offset_ms : Z  (* local time of the process minus UTC *)
}.

(** ** Initialization *)

Inductive init_result :=
| InitCallback (initialStates : list state) (nextInvocationTimeout : Z)
| InitThrows (e : exception).

(** [pawsInitCollectionState(event, callback)], with the clock reading of its
    [moment()]. *)
Definition pawsInitCollectionState (this : collector) (env : environment)
    (clock : Z) : init_result :=
  let startTs :=
    if datestr_truthy (paws_collection_start_ts env)
    then paws_collection_start_ts env
    else Moment.toISOString
           (Moment.subtract (Moment.now clock) 5 Moment.Minutes) in
  let endTs :=
    Moment.toISOString
      (Moment.add (Moment.parse startTs) (pollInterval this) Moment.Seconds) in
  match paws_collector_param_string_2 env with
  | NotJson => InitThrows SyntaxError
  | Parsed (VArr applicationNames) =>
      let initialStates :=
        map (fun application' =>
               {| application := application';
                  since := startTs;
                  until := endTs;
                  nextPage := None;
                  apiQuotaResetDate := None;
                  poll_interval_sec := 1 |}) applicationNames in
      InitCallback initialStates 1
  | Parsed _ => InitThrows TypeError  (* [applicationNames.map] is not a function *)
  end.

(** ** One invocation: [pawsGetLogs] *)

Record params := {
  pageToken : option string;
  startTime : option datestr;
  endTime : option datestr;
  userKey : string;
  applicationName : value
}.

(** How the promise of [utils.listEvents] settles. *)
Inductive listing :=
| Resolved (accumulator : list value) (nextPage' : option string)
| Rejected (error : api_error).

(** The clock readings of one invocation, by call site of [moment()]. *)
Record clock := {
  at_gate : Z;   (* the quota gate *)
  at_next : Z;   (* [_getNextCollectionState] *)
  at_pst : Z;    (* [pstCurrentDateTime] *)
  at_reset : Z   (* [apiQuotaResetDate] *)
}.

(** The same instant at every call site. *)
Definition frozen (t : Z) : clock :=
  {| at_gate := t; at_next := t; at_pst := t; at_reset := t |}.

Inductive invocation :=
| Callback (logs : list value) (newState : state) (nextInvocationTimeout : Z)
| CallbackError (error : api_error)
| Throws (e : exception)        (* thrown before anything is fetched *)
| Unhandled (e : exception).    (* thrown inside the rejection handler *)

(** [s.split(",")]. *)
Fixpoint split (sep : Ascii.ascii) (s : string) : list string :=
  match s with
  | EmptyString => [EmptyString]
  | String c rest =>
      if Ascii.eqb c sep then EmptyString :: split sep rest
      else match split sep rest with
           | hd :: tl => String c hd :: tl
           | [] => [String c EmptyString]
           end
  end.

Definition string_truthy (s : option string) : bool :=
  match s with
  | Some s => negb (String.eqb s EmptyString)
  | None => false
  end.

Section Invocation.

(** google-auth-library: the credentials [auth.fromJSON(JSON.parse(keys))]
    builds, or what either call throws. *)
Variable Credentials : Type.
Variable auth_fromJSON : string -> attempt Credentials.

Record auth_client := {
  credentials : Credentials;
  subject : option string;
  scopes : list string
}.

(** [utils.listEvents(client, params, accumulator, maxPagesPerInvocation)]. *)
Variable listEvents :
  auth_client -> params -> list value -> option nat -> listing.

(** Lines 65 to 72: the client the invocation fetches with. *)
Definition build_client (this : collector) (env : environment)
    : attempt auth_client :=
  let not_found :=
    Raises (Error "The $CREDS environment variable was not found!") in
  match secret this with
  | Some keysEnvVar =>
      if String.eqb keysEnvVar EmptyString then not_found
      else
        match auth_fromJSON keysEnvVar with
        | Returns keys =>
            match paws_collector_param_string_1 env with
            | Some scope =>
                Returns {| credentials := keys;
                           subject := clientId this;
                           scopes := split ","%char scope |}
            | None => Raises TypeError  (* [undefined.split] *)
            end
        | Raises e => Raises e
        end
  | None => not_found
  end.

(** Lines 75 to 84. *)
Definition build_params (st : state) : params :=
  {| pageToken := if string_truthy (nextPage st) then nextPage st else None;
     startTime := since st;
     endTime := until st;
     userKey := "all";
     applicationName := application st |}.

(** Line 86. *)
Definition quota_in_effect (clk : clock) (st : state) : bool :=
  datestr_truthy (apiQuotaResetDate st)
  && Moment.isBefore (Moment.now (at_gate clk))
                     (Moment.parse (apiQuotaResetDate st)).

(** Lines 107 to 114: the date the quota is taken to be reset at. *)
Definition quota_reset_date (env : environment) (clk : clock)
    : option datestr :=
  let pstCurrentDateTime :=
    Moment.toISOString
      (Moment.subtract (Moment.now (at_pst clk)) 8 Moment.Hours) in
  let pstEndDateTime :=
    Moment.endOf_day (tz_offset_ms env) (Moment.parse pstCurrentDateTime) in
  let extraBufferSeconds := 60 in
  match Moment.diff pstEndDateTime (Moment.parse pstCurrentDateTime)
                    Moment.Seconds with
  | Some d =>
      Moment.toISOString
        (Moment.add (Moment.now (at_reset clk)) (d + extraBufferSeconds)
                    Moment.Seconds)
  | None => None
  end.

(** The rejection handler. *)
Definition on_rejected (env : environment) (clk : clock) (st : state)
    (error : api_error) : invocation :=
  match errors error with
  | Some (reason :: _) =>
      if String.eqb reason dailyLimitExceeded then
        let st' :=
          {| application := application st;
             since := since st;
             until := until st;
             nextPage := nextPage st;
             apiQuotaResetDate := quota_reset_date env clk;
             poll_interval_sec := 900 |} in
        Callback [] st' (poll_interval_sec st')
      else CallbackError error
  | Some [] | None => Unhandled TypeError
  end.

(** The fulfilment handler. *)
Definition on_resolved (this : collector) (clk : clock) (st : state)
    (accumulator : list value) (nextPage' : option string) : invocation :=
  let newState :=
    match nextPage' with
    | None => _getNextCollectionState this (at_next clk) st
    | Some _ => _getNextCollectionStateWithNextPage st nextPage'
    end in
  Callback accumulator newState (poll_interval_sec newState).

(** [pawsGetLogs(state, callback)]: the calls made to [utils.listEvents]
    and how the invocation ends. *)
Definition pawsGetLogs (this : collector) (env : environment) (clk : clock)
    (st : state) : list params * invocation :=
  match build_client this env with
  | Raises e => ([], Throws e)
  | Returns client =>
      let params := build_params st in
      if quota_in_effect clk st then
        ([], Callback [] st (poll_interval_sec st))
      else
        ([params],
         match listEvents client params []
                          (paws_max_pages_per_invocation env) with
         | Resolved accumulator nextPage' =>
             on_resolved this clk st accumulator nextPage'
         | Rejected error => on_rejected env clk st error
         end)
  end.

End Invocation.

(** ** The paginated fetcher *)

(** Modelled from the spec: what [fetchPage(params)] gives, a page of items
    with an optional [nextPageToken], or the error of the upstream. *)
Inductive page_result :=
| Page (items : list value) (nextPageToken : option string)
| PageError (error : api_error).

(** Modelled from the spec: the parameters merged with the token of the
    previous page. *)
Definition with_token (p : params) (token : string) : params :=
  {| pageToken := Some token;
     startTime := startTime p;
     endTime := endTime p;
     userKey := userKey p;
     applicationName := applicationName p |}.

Section Fetcher.

Variable fetchPage : params -> page_result.

(** Modelled from the spec: the page budget of [utils.listEvents], whose
    file (collectors/gsuite/utils.js) is not among the sources; a budget of
    zero or an unset budget means one page only. *)
Definition page_budget (pageBudget : option nat) : nat :=
  match pageBudget with
  | Some (S n) => S n
  | Some O | None => 1%nat
  end.

(** Modelled from the spec: the page loop of [utils.listEvents], whose file
    (collectors/gsuite/utils.js) is not among the sources.  One call of
    [fetchPage] per iteration, the previous page's token merged into the
    parameters; items are appended in upstream order; the loop stops at a
    page without token (no continuation token), or when the calls made reach
    the budget (the last token is the continuation token); an error of
    [fetchPage] rejects the whole fetch, whatever was accumulated.  [more]
    is the number of calls still allowed after this one.  The result lists
    the parameters of the calls made. *)
Fixpoint fetchLoop (more : nat) (p : params) (acc : list value)
    {struct more} : list params * listing :=
  match fetchPage p with
  | Page items None => ([p], Resolved (acc ++ items) None)
  | Page items (Some token) =>
      match more with
      | O => ([p], Resolved (acc ++ items) (Some token))
      | S more' =>
          let '(calls, r) :=
            fetchLoop more' (with_token p token) (acc ++ items) in
          (p :: calls, r)
      end
  | PageError error => ([p], Rejected error)
  end.

(** Modelled from the spec: [fetchAll(fetchPage, baseParams, pageBudget)],
    that is [utils.listEvents], whose file (collectors/gsuite/utils.js) is
    not among the sources. *)
Definition fetchAll (baseParams : params) (accumulator : list value)
    (pageBudget : option nat) : list params * listing :=
  fetchLoop (Nat.pred (page_budget pageBudget)) baseParams accumulator.

(** The upstream seen from [p]: the items of the next [n] pages when each
    of them carries a token, and the parameters of the request after them. *)
Fixpoint follow (n : nat) (p : params) : option (list value * params) :=
  match n with
  | O => Some ([], p)
  | S n' =>
      match fetchPage p with
      | Page items (Some token) =>
          match follow n' (with_token p token) with
          | Some (rest, p') => Some (items ++ rest, p')
          | None => None
          end
      | _ => None
      end
  end.

End Fetcher.

(** ** Record framing: [pawsFormatLog] *)

Definition typeIdPaths : list (list string) := [["kind"]].

Definition tsPaths : list (list string) := [["id"; "time"]].

(** [v.key] for a key that only an object can hold. *)
Definition get_prop (v : value) (key : string) : attempt value :=
  match v with
  | VUndefined | VNull => Raises TypeError
  | VObj fields =>
      Returns (match List.find (fun kv => String.eqb (fst kv) key) fields with
               | Some kv => snd kv
               | None => VUndefined
               end)
  | VBool _ | VNum _ | VStr _ | VArr _ => Returns VUndefined
  end.

Definition is_nullish (v : value) : bool :=
  match v with
  | VUndefined | VNull => true
  | _ => false
  end.

Section Framing.

(** al-collector-js: [parse.getMsgTs] and [parse.getMsgTypeId]. *)
Variable getMsgTs : value -> list (list string) -> value.
Variable getMsgTypeId : value -> list (list string) -> value.

(** [JSON.stringify(v)] and the template literal of one value. *)
Variable JSON_stringify : value -> string.
Variable template_literal : value -> string.

Definition pawsFormatLog (msg : value) : attempt (gmap string value) :=
  let ts := getMsgTs msg tsPaths in
  let typeId := getMsgTypeId msg typeIdPaths in
  match get_prop ts "sec", get_prop ts "usec" with
  | Returns sec, Returns usec =>
      let formattedMsg : gmap string value :=
        <["messageType" := VStr "json/gsuite"]>
          (<["message" := VStr (JSON_stringify msg)]>
             (<["progName" := VStr "GsuiteCollector"]>
                (<["priority" := VNum (11 # 1)]>
                   (<["messageTs" := sec]> ∅)))) in
      let formattedMsg :=
        if is_nullish typeId then formattedMsg
        else <["messageTypeId" := VStr (template_literal typeId)]>
               formattedMsg in
      let formattedMsg :=
        if truthy usec then <["messageTsUs" := usec]> formattedMsg
        else formattedMsg in
      Returns formattedMsg
  | Raises e, _ | _, Raises e => Raises e
  end.

End Framing.

(** ** Runs of invocations *)

(** One invocation as the host sees it: the clock readings and how the fetch
    of that invocation settles. *)
Record cycle := {
  cycle_clock : clock;
  cycle_fetch : listing
}.

Section Runs.

Variable Credentials : Type.
Variable auth_fromJSON : string -> attempt Credentials.
Variable this : collector.
Variable env : environment.

(** The state the host holds after an invocation: the new state when the
    callback delivers one, the previous state when the invocation fails. *)
Definition persisted (st : state) (c : cycle) : state :=
  match snd (pawsGetLogs Credentials auth_fromJSON
               (fun _ _ _ _ => cycle_fetch c) this env (cycle_clock c) st) with
  | Callback _ newState _ => newState
  | CallbackError _ | Throws _ | Unhandled _ => st
  end.

(** The states the host holds after each invocation of a run. *)
Fixpoint run (st : state) (cs : list cycle) : list state :=
  match cs with
  | [] => []
  | c :: rest => persisted st c :: run (persisted st c) rest
  end.

End Runs.

(** [a <= b] for two date strings that both denote an instant. *)
Definition date_le (a b : option datestr) : Prop :=
  match a, b with
  | Some (Iso x), Some (Iso y) => x <= y
  | _, _ => False
  end.

(** Along the states [sts] that follow [st], [since] and [until] never move
    backward and [since <= until] holds. *)
Fixpoint advancing (st : state) (sts : list state) : Prop :=
  match sts with
  | [] => True
  | st' :: rest =>
      date_le (since st) (since st')
      /\ date_le (until st) (until st')
      /\ date_le (since st') (until st')
      /\ advancing st' rest
  end.

(** The clock readings of the cycles [cs] start at [t] or later and never go
    backward. *)
Fixpoint clock_from (t : Z) (cs : list cycle) : Prop :=
  match cs with
  | [] => True
  | c :: rest =>
      t <= at_next (cycle_clock c)
      /\ clock_from (at_next (cycle_clock c)) rest
  end.

(** The cycle ends in a daily-limit error. *)
Definition quota_error (c : cycle) : Prop :=
  match cycle_fetch c with
  | Rejected error =>
      exists rest, errors error = Some (dailyLimitExceeded :: rest)
  | Resolved _ _ => False
  end.

(** The start date the collector is configured with, if any, is a date that
    is not ahead of the clock. *)
Definition start_not_ahead (env : environment) (clock : Z) : Prop :=
  match paws_collection_start_ts env with
  | Some (Iso s) => s <= clock
  | Some (Raw r) => r = EmptyString
  | None => True
  end.

(** ** The catch-up rule in the specification's words *)

(** Whole hours from [drainedUntil] to [now]. *)
Definition behindHours (now drainedUntil : Z) : Z :=
  Z.quot (now - drainedUntil) 3600000.

(** Width of the next window, in milliseconds: 24 hours when more than 24
    hours behind, else 1 hour when more than 1 hour behind, else the
    configured poll interval. *)
Definition window_width (this : collector) (now drainedUntil : Z) : Z :=
  if 24 <? behindHours now drainedUntil then 24 * 3600000
  else if 1 <? behindHours now drainedUntil then 1 * 3600000
  else pollInterval this * 1000.

(** Delay after a drained window: minimal when the new window ends more than
    one poll interval (in whole seconds) before [now]. *)
Definition drained_delay (this : collector) (now nextUntil : Z) : Z :=
  if pollInterval this <? Z.quot (now - nextUntil) 1000 then 1
  else pollInterval this.

(** ** Example data *)

(** 2019-11-21T16:00:00.000Z. *)
Definition D0 : Z := 1574352000000.

Definition login : value := VStr "login".

Definition example_collector : collector :=
  {| pollInterval := 60;
     secret := Some "keys";
     clientId := Some "admin@example.com" |}.

Definition example_env : environment :=
  {| paws_collection_start_ts := None;
     paws_collector_param_string_1 := Some "scope.a,scope.b";
     paws_collector_param_string_2 := Parsed (VArr [login]);
     paws_max_pages_per_invocation := Some 3%nat;
     tz_offset_ms := 0 |}.

Definition example_state : state :=
  {| application := login;
     since := Some (Iso D0);
     until := Some (Iso (D0 + 60000));
     nextPage := None;
     apiQuotaResetDate := None;
     poll_interval_sec := 60 |}.

Definition example_auth (keys : string) : attempt unit := Returns tt.

Definition example_client : auth_client unit :=
  {| credentials := tt;
     subject := Some "admin@example.com";
     scopes := ["scope.a"; "scope.b"] |}.

Definition daily_limit_error : api_error :=
  {| errors := Some [dailyLimitExceeded];
     message := "Daily Limit Exceeded" |}.

(** A state that still waits for the quota to be reset, one hour after [D0]. *)
Definition quota_state : state :=
  {| application := login;
     since := Some (Iso D0);
     until := Some (Iso (D0 + 60000));
     nextPage := Some "page-2";
     apiQuotaResetDate := Some (Iso (D0 + 3600000));
     poll_interval_sec := 900 |}.

(** Upstreams that settle the same way whatever they are asked. *)
Definition upstream_drained
    (client : auth_client unit) (p : params) (acc : list value)
    (budget : option nat) : listing :=
  Resolved [VStr "event-1"] None.

Definition upstream_more_pages
    (client : auth_client unit) (p : params) (acc : list value)
    (budget : option nat) : listing :=
  Resolved [VStr "event-1"] (Some "page-2").

Definition upstream_daily_limit
    (client : auth_client unit) (p : params) (acc : list value)
    (budget : option nat) : listing :=
  Rejected daily_limit_error.

(** A start date configured one hour after the clock of initialization. *)
Definition future_env : environment :=
  {| paws_collection_start_ts := Some (Iso (D0 + 3600000));
     paws_collector_param_string_1 := Some "scope.a,scope.b";
     paws_collector_param_string_2 := Parsed (VArr [login]);
     paws_max_pages_per_invocation := Some 3%nat;
     tz_offset_ms := 0 |}.

Definition future_state : state :=
  {| application := login;
     since := Some (Iso (D0 + 3600000));
     until := Some (Iso (D0 + 3660000));
     nextPage := None;
     apiQuotaResetDate := None;
     poll_interval_sec := 1 |}.

(** The first invocation, one second after initialization, drains its window. *)
Definition first_cycle : cycle :=
  {| cycle_clock := frozen (D0 + 1000);
     cycle_fetch := Resolved [] None |}.

(** An upstream of three pages. *)
Definition three_pages (p : params) : page_result :=
  match pageToken p with
  | None => Page [VStr "event-1"; VStr "event-2"] (Some "page-2")
  | Some token =>
      if String.eqb token "page-2" then Page [VStr "event-3"] (Some "page-3")
      else Page [VStr "event-4"] None
  end.

(** An upstream whose second page hits the daily limit. *)
Definition quota_on_page_2 (client : auth_client unit) (p : params)
    : page_result :=
  match pageToken p with
  | None => Page [VStr "event-1"; VStr "event-2"] (Some "page-2")
  | Some _ => PageError daily_limit_error
  end.

(** al-collector-js look-ups that find nothing in the event: the time stamp
    falls back to some clock reading, the type identifier is [null]. *)
Definition lookup_fails_ts (msg : value) (paths : list (list string)) : value :=
  VObj [("sec", VNum (1574352000 # 1)); ("usec", VNull)].

Definition lookup_fails_typeId (msg : value) (paths : list (list string))
    : value := VNull.

Definition example_stringify (v : value) : string :=
  match v with
  | VStr s => s
  | _ => "{}"
  end.

(** A start date that is no date. *)
Definition garbled_env : environment :=
  {| paws_collection_start_ts := Some (Raw "yesterday-ish");
     paws_collector_param_string_1 := Some "scope.a,scope.b";
     paws_collector_param_string_2 := Parsed (VArr [login]);
     paws_max_pages_per_invocation := Some 3%nat;
     tz_offset_ms := 0 |}.

(** [v] is an array. *)
Definition is_array (v : value) : bool :=
  match v with
  | VArr _ => true
  | _ => false
  end.

(** ** Notions used by the further properties *)

(** [parts.join(sep)]. *)
Fixpoint join (sep : Ascii.ascii) (parts : list string) : string :=
  match parts with
  | [] => EmptyString
  | [part] => part
  | part :: rest => String.append part (String sep (join sep rest))
  end.

(** The character [c] occurs in [s]. *)
Fixpoint occurs (c : Ascii.ascii) (s : string) : bool :=
  match s with
  | EmptyString => false
  | String c' rest => Ascii.eqb c' c || occurs c rest
  end.

(** Along the states [sts] that follow [st], no window starts after the end
    of the window before it. *)
Fixpoint gapless (st : state) (sts : list state) : Prop :=
  match sts with
  | [] => True
  | st' :: rest => date_le (since st') (until st) /\ gapless st' rest
  end.

(** The keys every framed record holds, and the keys it may hold. *)
Definition required_keys : gset string :=
  {[ "messageTs"; "priority"; "progName"; "message"; "messageType" ]}.

Definition optional_keys : gset string :=
  {[ "messageTypeId"; "messageTsUs" ]}.

(** An upstream error that is not about the daily limit, though a later
    entry of its [errors] is. *)
Definition rate_limit_error : api_error :=
  {| errors := Some ["rateLimitExceeded"; dailyLimitExceeded];
     message := "Rate Limit Exceeded" |}.

(** An error without [errors], such as a network failure. *)
Definition network_error : api_error :=
  {| errors := None; message := "socket hang up" |}.

Definition upstream_rate_limit
    (client : auth_client unit) (p : params) (acc : list value)
    (budget : option nat) : listing :=
  Rejected rate_limit_error.

Definition upstream_network_error
    (client : auth_client unit) (p : params) (acc : list value)
    (budget : option nat) : listing :=
  Rejected network_error.

(** A collector without credentials. *)
Definition bare_collector : collector :=
  {| pollInterval := 60; secret := None; clientId := None |}.

(** The state initialization gives for [garbled_env]. *)
Definition garbled_state : state :=
  {| application := login;
     since := Some (Raw "yesterday-ish");
     until := None;
     nextPage := None;
     apiQuotaResetDate := None;
     poll_interval_sec := 1 |}.

(** An authentication library that rejects the keys. *)
Definition failing_auth (keys : string) : attempt unit := Raises SyntaxError.

(** An environment without scope variable. *)
Definition scopeless_env : environment :=
  {| paws_collection_start_ts := None;
     paws_collector_param_string_1 := None;
     paws_collector_param_string_2 := Parsed (VArr [login]);
     paws_max_pages_per_invocation := Some 3%nat;
     tz_offset_ms := 0 |}.

(** A clock that goes backward between two invocations. *)
Definition erratic_cycles : list cycle :=
  [ {| cycle_clock := frozen (D0 + 30 * 3600000);
       cycle_fetch := Resolved [] None |};
    {| cycle_clock := frozen (D0 - 3600000);
       cycle_fetch := Resolved [] None |};
    {| cycle_clock := frozen (D0 + 3600000);
       cycle_fetch := Rejected daily_limit_error |} ].

(** * Properties *)

(** ** Arithmetic of the moment model *)

Lemma quot_nonneg_le (a b k : Z) :
  0 < b -> 0 <= a -> (k < Z.quot a b <-> (k + 1) * b <= a).
Proof.
  intros Hb Ha. rewrite Z.quot_div_nonneg by lia. split; intros H.
  - assert (k + 1 <= a / b) by lia.
    pose proof (Z.mul_div_le a b Hb). nia.
  - assert (k + 1 <= a / b); [| lia].
    apply Z.div_le_lower_bound; lia.
Qed.

(** ** The drained-window transition on a state with a valid [until] *)

Lemma next_state_drained (this : collector) (now u : Z) (st : state) :
  until st = Some (Iso u) ->
  _getNextCollectionState this now st =
    {| application := application st;
       since := Some (Iso (Z.min u now));
       until := Some (Iso (Z.min u now + window_width this now (Z.min u now)));
       nextPage := None;
       apiQuotaResetDate := None;
       poll_interval_sec :=
         drained_delay this now
           (Z.min u now + window_width this now (Z.min u now)) |}.
Proof.
  intros Hu.
  unfold _getNextCollectionState, window_width, drained_delay, behindHours.
  rewrite Hu.
  cbv beta iota zeta delta
    [Moment.parse Moment.now Moment.isAfter Moment.toISOString Moment.diff
     Moment.gt Moment.unit_ms Moment.add].
  destruct (Z.ltb_spec now u) as [Hlt | Hge].
  - rewrite Z.min_r by lia.
    cbv beta iota.
    destruct (24 <? _); [reflexivity |]. destruct (1 <? _); reflexivity.
  - rewrite Z.min_l by lia.
    cbv beta iota.
    destruct (24 <? _); [reflexivity |]. destruct (1 <? _); reflexivity.
Qed.

Lemma min_until_now_le (u now : Z) : Z.min u now <= now.
Proof. apply Z.le_min_r. Qed.

Lemma drained_delay_not_behind (this : collector) (now nu : Z) :
  Z.quot (now - nu) 1000 <= pollInterval this ->
  drained_delay this now nu = pollInterval this.
Proof.
  intros H. unfold drained_delay.
  destruct (Z.ltb_spec (pollInterval this) (Z.quot (now - nu) 1000)); [lia | reflexivity].
Qed.

(** ** C1: where the next window starts *)

(** C1, as stated, fails at its own scenario: with [until = D0 + 60 s] and
    [now = D0 + 65 s] the next window starts at the previous [until],
    [D0 + 60 s], which is not the later of the two instants, and it ends at
    [D0 + 120 s], not at [D0 + 125 s]. *)
Lemma c1_next_since_is_not_the_later_instant :
  since (_getNextCollectionState example_collector (D0 + 65000) example_state)
    = Some (Iso (D0 + 60000))
  /\ until (_getNextCollectionState example_collector (D0 + 65000) example_state)
    = Some (Iso (D0 + 120000))
  /\ since (_getNextCollectionState example_collector (D0 + 65000) example_state)
    <> Some (Iso (Z.max (D0 + 60000) (D0 + 65000)))
  /\ until (_getNextCollectionState example_collector (D0 + 65000) example_state)
    <> Some (Iso (D0 + 125000)).
Proof. vm_compute. repeat split; congruence. Qed.

(** C1, amended: after a drained window (a fetch that resolves without
    continuation token) the next [since] is the earlier of the previous
    [until] and [now], so the next window never starts in the future; the
    delay handed to the host is the new state's [poll_interval_sec], and it
    is the configured poll interval whenever the whole seconds from the new
    [until] to [now] do not exceed that interval.  In the scenario
    [until = d + 60 s], [now = d + 65 s], poll interval 60: [since = d + 60 s],
    [until = d + 120 s], delay 60. *)
Theorem c1_drained_since_is_earlier_of_until_and_now
    (this : collector) (clk : clock) (st : state) (u : Z)
    (accumulator : list value) :
  until st = Some (Iso u) ->
  exists st' : state,
    st' = _getNextCollectionState this (at_next clk) st
    /\ on_resolved this clk st accumulator None
       = Callback accumulator st' (poll_interval_sec st')
    /\ since st' = Some (Iso (Z.min u (at_next clk)))
    /\ Z.min u (at_next clk) <= at_next clk
    /\ (forall nu : Z,
          until st' = Some (Iso nu) ->
          Z.quot (at_next clk - nu) 1000 <= pollInterval this ->
          poll_interval_sec st' = pollInterval this)
    /\ (forall d : Z,
          u = d + 60000 -> at_next clk = d + 65000 -> pollInterval this = 60 ->
          since st' = Some (Iso (d + 60000))
          /\ until st' = Some (Iso (d + 120000))
          /\ poll_interval_sec st' = 60).
Proof.
  intros Hu. eexists. split; [reflexivity |].
  rewrite (next_state_drained this (at_next clk) u st Hu).
  split; [| split; [| split; [| split]]].
  - unfold on_resolved. rewrite (next_state_drained this (at_next clk) u st Hu).
    reflexivity.
  - reflexivity.
  - apply min_until_now_le.
  - cbn [until poll_interval_sec]. intros nu Hnu Hq.
    injection Hnu as Hnu. rewrite Hnu. apply drained_delay_not_behind, Hq.
  - intros d -> Hnow HP. rewrite Hnow. cbn [since until poll_interval_sec].
    rewrite Z.min_l by lia.
    assert (Hw : window_width this (d + 65000) (d + 60000) = 60000).
    { unfold window_width, behindHours.
      replace (d + 65000 - (d + 60000)) with 5000 by lia.
      rewrite HP. reflexivity. }
    rewrite Hw. split; [reflexivity |]. split; [f_equal; f_equal; lia |].
    unfold drained_delay.
    replace (d + 65000 - (d + 60000 + 60000)) with (-55000) by lia.
    rewrite HP. reflexivity.
Qed.

Lemma c1_drained_since_is_earlier_of_until_and_now_witness :
  exists st' : state,
    st' = _getNextCollectionState example_collector (D0 + 65000) example_state
    /\ since st' = Some (Iso (D0 + 60000))
    /\ poll_interval_sec st' = 60.
Proof.
  destruct (c1_drained_since_is_earlier_of_until_and_now
              example_collector (frozen (D0 + 65000)) example_state
              (D0 + 60000) [] eq_refl)
    as (st' & Hst & _ & _ & _ & _ & Hscn).
  exists st'. split; [exact Hst |].
  destruct (Hscn D0 eq_refl eq_refl eq_refl) as (Hs & _ & Hp).
  split; assumption.
Defined.

(** ** C2: the width of the next window *)

Lemma window_width_cases (this : collector) (now ns : Z) :
  (24 < behindHours now ns -> window_width this now ns = 86400000)
  /\ (1 < behindHours now ns <= 24 -> window_width this now ns = 3600000)
  /\ (behindHours now ns <= 1 ->
      window_width this now ns = pollInterval this * 1000).
Proof.
  unfold window_width. repeat split; intros H.
  - destruct (Z.ltb_spec 24 (behindHours now ns)); [reflexivity | lia].
  - destruct (Z.ltb_spec 24 (behindHours now ns)); [lia |].
    destruct (Z.ltb_spec 1 (behindHours now ns)); [reflexivity | lia].
  - destruct (Z.ltb_spec 24 (behindHours now ns)); [lia |].
    destruct (Z.ltb_spec 1 (behindHours now ns)); [lia | reflexivity].
Qed.

(** C2: after a drained window, with [drainedUntil] the next [since] and
    [behindHours] the whole hours from it to [now], the next [until] is the
    next [since] plus a width of 24 hours when [behindHours > 24], of 1 hour
    when [1 < behindHours <= 24], and of the configured poll interval
    otherwise; however far behind the state is, the width is 24 hours, never
    more. *)
Theorem c2_drained_window_width
    (this : collector) (now u : Z) (st : state) :
  until st = Some (Iso u) ->
  exists ns width : Z,
    since (_getNextCollectionState this now st) = Some (Iso ns)
    /\ until (_getNextCollectionState this now st) = Some (Iso (ns + width))
    /\ (24 < behindHours now ns -> width = 24 * 3600000)
    /\ (1 < behindHours now ns <= 24 -> width = 3600000)
    /\ (behindHours now ns <= 1 -> width = pollInterval this * 1000)
    /\ (25 * 3600000 <= now - u -> width = 24 * 3600000).
Proof.
  intros Hu. exists (Z.min u now), (window_width this now (Z.min u now)).
  rewrite (next_state_drained this now u st Hu). cbn [since until].
  destruct (window_width_cases this now (Z.min u now)) as (H24 & H1 & H0).
  repeat split; try assumption; try reflexivity.
  intros Hfar. apply H24. unfold behindHours.
  rewrite Z.min_l by lia.
  apply (quot_nonneg_le (now - u) 3600000 24); lia.
Qed.

Lemma c2_drained_window_width_witness :
  exists ns width : Z,
    since (_getNextCollectionState example_collector (D0 + 60000 + 48 * 3600000)
             example_state) = Some (Iso ns)
    /\ until (_getNextCollectionState example_collector (D0 + 60000 + 48 * 3600000)
                example_state) = Some (Iso (ns + width))
    /\ width = 24 * 3600000.
Proof.
  destruct (c2_drained_window_width example_collector
              (D0 + 60000 + 48 * 3600000) (D0 + 60000) example_state eq_refl)
    as (ns & width & Hs & Hn & _ & _ & _ & Hfar).
  exists ns, width. split; [exact Hs |]. split; [exact Hn |].
  apply Hfar. vm_compute. discriminate.
Defined.

(** ** C3, C4, C5: the invocation *)

Section InvocationProperties.

Variable Credentials : Type.
Variable auth_fromJSON : string -> attempt Credentials.
Variable listEvents :
  auth_client Credentials -> params -> list value -> option nat -> listing.
Variable this : collector.
Variable env : environment.

Let getLogs := pawsGetLogs Credentials auth_fromJSON listEvents this env.
Let client_of := build_client Credentials auth_fromJSON this env.

Lemma quota_in_effect_iso (clk : clock) (st : state) (r : Z) :
  apiQuotaResetDate st = Some (Iso r) ->
  quota_in_effect clk st = (at_gate clk <? r).
Proof. intros H. unfold quota_in_effect. rewrite H. reflexivity. Qed.

(** C3: while the quota reset date of the state lies ahead of the clock,
    the invocation makes no call to the fetcher and calls back with no
    records, the very state it was given, and that state's own
    [poll_interval_sec] as delay, whatever the upstream would have
    answered. *)
Theorem c3_quota_gate_returns_state_unchanged
    (clk : clock) (st : state) (client : auth_client Credentials) (r : Z) :
  client_of = Returns client ->
  apiQuotaResetDate st = Some (Iso r) ->
  at_gate clk < r ->
  getLogs clk st = ([], Callback [] st (poll_interval_sec st)).
Proof.
  intros Hc Hq Hlt. unfold getLogs, pawsGetLogs. fold client_of. rewrite Hc.
  rewrite (quota_in_effect_iso clk st r Hq).
  destruct (Z.ltb_spec (at_gate clk) r); [reflexivity | lia].
Qed.

Lemma quota_reset_date_eq (clk : clock) :
  quota_reset_date env clk =
    Some (Iso (at_reset clk
               + (Z.quot ((at_pst clk - 28800000 + tz_offset_ms env)
                            / 86400000 * 86400000
                          + 86400000 - 1 - tz_offset_ms env
                          - (at_pst clk - 28800000)) 1000 + 60) * 1000)).
Proof. reflexivity. Qed.

(** C4: when the fetch is rejected with the daily-limit reason, the
    invocation calls back with no records and with the state it was given,
    [since], [until] and token untouched, except that [poll_interval_sec]
    is the cool-down of 900 seconds (15 minutes), also the delay, and that
    [apiQuotaResetDate] is an instant [r] after the last clock reading of
    the invocation.  With the process clock on UTC, [r] is the next
    midnight of the zone 8 hours behind UTC, plus a buffer of 59 to 60
    seconds, plus the time that passed between the two clock readings it
    is computed from. *)
Theorem c4_quota_exceeded_backs_off_until_pacific_midnight
    (clk : clock) (st : state) (client : auth_client Credentials)
    (error : api_error) (rest : list string) :
  client_of = Returns client ->
  quota_in_effect clk st = false ->
  listEvents client (build_params st) []
             (paws_max_pages_per_invocation env) = Rejected error ->
  errors error = Some (dailyLimitExceeded :: rest) ->
  exists r : Z,
    getLogs clk st =
      ([build_params st],
       Callback []
         {| application := application st;
            since := since st;
            until := until st;
            nextPage := nextPage st;
            apiQuotaResetDate := Some (Iso r);
            poll_interval_sec := 900 |}
         900)
    /\ at_reset clk < r
    /\ (tz_offset_ms env = 0 ->
        exists midnight : Z,
          (midnight - 8 * 3600000) mod 86400000 = 0
          /\ at_pst clk < midnight <= at_pst clk + 86400000
          /\ midnight + 59000 + (at_reset clk - at_pst clk) <= r
          /\ r <= midnight + 59999 + (at_reset clk - at_pst clk)).
Proof.
  intros Hc Hgate Hrej Herr.
  set (tz := tz_offset_ms env).
  set (c := at_pst clk - 28800000).
  set (x := (c + tz) / 86400000 * 86400000 + 86400000 - 1 - tz - c).
  assert (Hdiv : (c + tz) / 86400000 * 86400000 <= c + tz
                 < (c + tz) / 86400000 * 86400000 + 86400000).
  { pose proof (Z.mul_div_le (c + tz) 86400000 ltac:(lia)).
    pose proof (Z.mul_succ_div_gt (c + tz) 86400000 ltac:(lia)). lia. }
  assert (Hx : 0 <= x) by (unfold x; lia).
  assert (Hq : 1000 * Z.quot x 1000 <= x < 1000 * Z.quot x 1000 + 1000).
  { rewrite Z.quot_div_nonneg by lia.
    pose proof (Z.mul_div_le x 1000 ltac:(lia)).
    pose proof (Z.mul_succ_div_gt x 1000 ltac:(lia)). lia. }
  exists (at_reset clk + (Z.quot x 1000 + 60) * 1000).
  split; [| split].
  - unfold getLogs, pawsGetLogs. fold client_of. rewrite Hc, Hgate, Hrej.
    unfold on_rejected. rewrite Herr.
    unfold dailyLimitExceeded at 1 2. rewrite String.eqb_refl.
    rewrite (quota_reset_date_eq clk). reflexivity.
  - lia.
  - intros Hz. exists ((c / 86400000 + 1) * 86400000 + 28800000).
    assert (Ex : x = (c / 86400000 + 1) * 86400000 + 28800000 - 1
                     - at_pst clk).
    { unfold x. replace tz with 0 by (symmetry; exact Hz).
      rewrite Z.add_0_r. lia. }
    assert (Hc0 : c / 86400000 * 86400000 <= c
                  < c / 86400000 * 86400000 + 86400000).
    { replace tz with 0 in Hdiv by (symmetry; exact Hz).
      rewrite Z.add_0_r in Hdiv. exact Hdiv. }
    split; [| split; [| split]].
    + replace ((c / 86400000 + 1) * 86400000 + 28800000 - 8 * 3600000)
        with ((c / 86400000 + 1) * 86400000) by lia.
      apply Z.mod_mul. lia.
    + unfold c in *. lia.
    + lia.
    + lia.
Qed.

(** C5: when the fetch resolves with a continuation token, the invocation
    calls back with the fetched records, a delay of one second, and the
    state it was given with the token set to the new one,
    [apiQuotaResetDate] cleared and [poll_interval_sec] set to that one
    second; application, [since] and [until] are the given ones. *)
Theorem c5_more_pages_keeps_the_window
    (clk : clock) (st : state) (client : auth_client Credentials)
    (accumulator : list value) (token : string) :
  client_of = Returns client ->
  quota_in_effect clk st = false ->
  listEvents client (build_params st) []
             (paws_max_pages_per_invocation env)
    = Resolved accumulator (Some token) ->
  getLogs clk st =
    ([build_params st],
     Callback accumulator
       (_getNextCollectionStateWithNextPage st (Some token)) 1)
  /\ _getNextCollectionStateWithNextPage st (Some token) =
       {| application := application st;
          since := since st;
          until := until st;
          nextPage := Some token;
          apiQuotaResetDate := None;
          poll_interval_sec := 1 |}.
Proof.
  intros Hc Hgate Hres. split; [| reflexivity].
  unfold getLogs, pawsGetLogs. fold client_of. rewrite Hc, Hgate, Hres.
  reflexivity.
Qed.

End InvocationProperties.

Lemma c3_quota_gate_returns_state_unchanged_witness :
  pawsGetLogs unit example_auth upstream_drained example_collector example_env
    (frozen D0) quota_state
  = ([], Callback [] quota_state 900).
Proof.
  apply (c3_quota_gate_returns_state_unchanged unit example_auth
           upstream_drained example_collector example_env (frozen D0)
           quota_state example_client (D0 + 3600000)).
  - reflexivity.
  - reflexivity.
  - vm_compute. reflexivity.
Defined.

Lemma c4_quota_exceeded_backs_off_until_pacific_midnight_witness :
  exists r : Z,
    pawsGetLogs unit example_auth upstream_daily_limit example_collector
      example_env (frozen D0) example_state
    = ([build_params example_state],
       Callback []
         {| application := login;
            since := Some (Iso D0);
            until := Some (Iso (D0 + 60000));
            nextPage := None;
            apiQuotaResetDate := Some (Iso r);
            poll_interval_sec := 900 |}
         900)
    /\ D0 < r
    /\ exists midnight : Z,
         (midnight - 8 * 3600000) mod 86400000 = 0
         /\ D0 < midnight <= D0 + 86400000
         /\ midnight + 59000 <= r <= midnight + 59999.
Proof.
  destruct (c4_quota_exceeded_backs_off_until_pacific_midnight unit
              example_auth upstream_daily_limit example_collector example_env
              (frozen D0) example_state example_client daily_limit_error []
              eq_refl eq_refl eq_refl eq_refl)
    as (r & Hrun & Hlt & Hutc).
  exists r. split; [exact Hrun |]. split; [exact Hlt |].
  destruct (Hutc eq_refl) as (midnight & Hmod & Hnext & Hlo & Hhi).
  exists midnight. cbn [frozen at_pst at_reset] in *.
  split; [exact Hmod |]. split; [exact Hnext |]. lia.
Defined.

Lemma c5_more_pages_keeps_the_window_witness :
  pawsGetLogs unit example_auth upstream_more_pages example_collector
    example_env (frozen D0) example_state
  = ([build_params example_state],
     Callback [VStr "event-1"]
       {| application := login;
          since := Some (Iso D0);
          until := Some (Iso (D0 + 60000));
          nextPage := Some "page-2";
          apiQuotaResetDate := None;
          poll_interval_sec := 1 |}
       1).
Proof.
  destruct (c5_more_pages_keeps_the_window unit example_auth
              upstream_more_pages example_collector example_env (frozen D0)
              example_state example_client [VStr "event-1"] "page-2"
              eq_refl eq_refl eq_refl) as [Hrun _].
  exact Hrun.
Defined.

(** ** C6: the window along a run *)

Lemma window_width_bounds (this : collector) (now ns : Z) :
  0 <= pollInterval this -> ns <= now ->
  0 <= window_width this now ns
  /\ ns + window_width this now ns <= now + pollInterval this * 1000
  /\ (ns = now -> window_width this now ns = pollInterval this * 1000).
Proof.
  intros HP Hle. unfold window_width, behindHours.
  destruct (Z.ltb_spec 24 (Z.quot (now - ns) 3600000)) as [H24 | H24].
  - apply (quot_nonneg_le (now - ns) 3600000 24) in H24; [| lia | lia].
    repeat split; lia.
  - destruct (Z.ltb_spec 1 (Z.quot (now - ns) 3600000)) as [H1 | H1].
    + apply (quot_nonneg_le (now - ns) 3600000 1) in H1; [| lia | lia].
      repeat split; lia.
    + repeat split; lia.
Qed.

Section RunProperties.

Variable Credentials : Type.
Variable auth_fromJSON : string -> attempt Credentials.
Variable this : collector.
Variable env : environment.

(** An invocation leaves the window alone or drains it. *)
Lemma persisted_cases (st : state) (c : cycle) :
  (since (persisted Credentials auth_fromJSON this env st c) = since st
   /\ until (persisted Credentials auth_fromJSON this env st c) = until st)
  \/ persisted Credentials auth_fromJSON this env st c
     = _getNextCollectionState this (at_next (cycle_clock c)) st.
Proof.
  unfold persisted, pawsGetLogs.
  destruct (build_client Credentials auth_fromJSON this env) as [client | e];
    [| left; split; reflexivity].
  destruct (quota_in_effect (cycle_clock c) st); [left; split; reflexivity |].
  cbn [snd]. destruct (cycle_fetch c) as [acc [token |] | error].
  - left. split; reflexivity.
  - right. reflexivity.
  - unfold on_rejected. destruct (errors error) as [[| reason rest] |];
      try (left; split; reflexivity).
    destruct (String.eqb reason dailyLimitExceeded); left; split; reflexivity.
Qed.

(** One invocation keeps the window valid, ordered, and no further ahead of
    the clock than one poll interval, and moves neither bound backward. *)
Lemma persisted_advances (st : state) (c : cycle) (t s u : Z) :
  0 <= pollInterval this ->
  since st = Some (Iso s) -> until st = Some (Iso u) ->
  s <= u -> s <= t -> u <= t + pollInterval this * 1000 ->
  t <= at_next (cycle_clock c) ->
  exists s' u' : Z,
    since (persisted Credentials auth_fromJSON this env st c) = Some (Iso s')
    /\ until (persisted Credentials auth_fromJSON this env st c) = Some (Iso u')
    /\ s <= s' /\ u <= u' /\ s' <= u'
    /\ s' <= at_next (cycle_clock c)
    /\ u' <= at_next (cycle_clock c) + pollInterval this * 1000.
Proof.
  intros HP Hs Hu Hsu Hst Hut Hclk.
  destruct (persisted_cases st c) as [[Es Eu] | E].
  - exists s, u. rewrite Es, Eu. repeat split; try assumption; lia.
  - rewrite E, (next_state_drained this (at_next (cycle_clock c)) u st Hu).
    cbn [since until]. set (now := at_next (cycle_clock c)) in *.
    exists (Z.min u now), (Z.min u now + window_width this now (Z.min u now)).
    destruct (window_width_bounds this now (Z.min u now) HP
                (min_until_now_le u now)) as (Hw0 & Hw1 & Hw2).
    split; [reflexivity |]. split; [reflexivity |].
    destruct (Z.le_gt_cases u now) as [Hle | Hgt].
    + rewrite Z.min_l in * by lia. repeat split; lia.
    + rewrite Z.min_r in * by lia. specialize (Hw2 eq_refl).
      repeat split; lia.
Qed.

Lemma run_advances (cs : list cycle) (st : state) (t s u : Z) :
  0 <= pollInterval this ->
  since st = Some (Iso s) -> until st = Some (Iso u) ->
  s <= u -> s <= t -> u <= t + pollInterval this * 1000 ->
  clock_from t cs ->
  advancing st (run Credentials auth_fromJSON this env st cs).
Proof.
  intros HP. revert st t s u.
  induction cs as [| c rest IH]; intros st t s u Hs Hu Hsu Hst Hut Hclk.
  - exact I.
  - destruct Hclk as [Hc Hrest]. cbn [run advancing].
    destruct (persisted_advances st c t s u HP Hs Hu Hsu Hst Hut Hc)
      as (s' & u' & Es & Eu & H1 & H2 & H3 & H4 & H5).
    rewrite Hs, Hu, Es, Eu. cbn [date_le].
    split; [exact H1 |]. split; [exact H2 |]. split; [exact H3 |].
    exact (IH _ _ s' u' Es Eu H3 H4 H5 Hrest).
Qed.

(** Initialization with a start date that is not ahead of the clock gives
    states whose window is valid, ordered and in reach of the clock. *)
Lemma initial_window (t0 : Z) (initialStates : list state) (st : state) :
  0 <= pollInterval this ->
  start_not_ahead env t0 ->
  pawsInitCollectionState this env t0 = InitCallback initialStates 1 ->
  In st initialStates ->
  exists s : Z,
    since st = Some (Iso s)
    /\ until st = Some (Iso (s + pollInterval this * 1000))
    /\ s <= t0.
Proof.
  intros HP Hstart Hinit Hin. unfold pawsInitCollectionState in Hinit.
  destruct (paws_collector_param_string_2 env) as [| v]; [discriminate |].
  destruct v as [| | b | q | x | apps | fields]; try discriminate.
  injection Hinit as <-. apply in_map_iff in Hin.
  destruct Hin as (a & <- & _). cbn [since until].
  unfold start_not_ahead in Hstart.
  destruct (paws_collection_start_ts env) as [[s | r] |].
  - exists s. repeat split. exact Hstart.
  - rewrite Hstart. exists (t0 - 5 * 60000). repeat split. lia.
  - exists (t0 - 5 * 60000). repeat split. lia.
Qed.

(** C6, amended: for a poll interval that is not negative and a start date
    that, when configured, is a date not ahead of the clock at
    initialization, every state that initialization hands out has
    [since <= until], and along every run of invocations from it under a
    clock that never goes backward, whether their fetches resolve, hit the
    quota or fail otherwise, [since] never decreases, [until] never
    decreases, and [since <= until] holds in every state. *)
Theorem c6_window_never_moves_backward
    (t0 : Z) (initialStates : list state) (st : state) (cs : list cycle) :
  0 <= pollInterval this ->
  start_not_ahead env t0 ->
  pawsInitCollectionState this env t0 = InitCallback initialStates 1 ->
  In st initialStates ->
  clock_from t0 cs ->
  date_le (since st) (until st)
  /\ advancing st (run Credentials auth_fromJSON this env st cs).
Proof.
  intros HP Hstart Hinit Hin Hclk.
  destruct (initial_window t0 initialStates st HP Hstart Hinit Hin)
    as (s & Hs & Hu & Hle).
  split.
  - rewrite Hs, Hu. cbn [date_le]. lia.
  - apply (run_advances cs st t0 s (s + pollInterval this * 1000));
      try assumption; lia.
Qed.

End RunProperties.

(** C6, as stated, fails for a start date configured ahead of the clock:
    initialization at [D0] with a start date of [D0 + 1 h] gives the window
    [D0 + 1 h, D0 + 1 h + 60 s]; the first invocation, one second later and
    without quota error, drains it and moves [since] back to [D0 + 1 s] and
    [until] back to [D0 + 61 s]. *)
Lemma c6_future_start_moves_window_backward :
  pawsInitCollectionState example_collector future_env D0
    = InitCallback [future_state] 1
  /\ clock_from D0 [first_cycle]
  /\ ~ quota_error first_cycle
  /\ (exists st1 : state,
        run unit example_auth example_collector future_env future_state
            [first_cycle] = [st1]
        /\ since st1 = Some (Iso (D0 + 1000))
        /\ until st1 = Some (Iso (D0 + 61000))
        /\ ~ date_le (since future_state) (since st1)
        /\ ~ date_le (until future_state) (until st1))
  /\ ~ advancing future_state
        (run unit example_auth example_collector future_env future_state
             [first_cycle]).
Proof.
  split; [reflexivity |].
  split; [split; [vm_compute; discriminate | exact I] |].
  split; [intros H; exact H |].
  split.
  - eexists. split; [reflexivity |].
    split; [reflexivity |]. split; [reflexivity |].
    split; vm_compute; intros H; apply H; reflexivity.
  - vm_compute. intros (H & _). apply H. reflexivity.
Qed.

Lemma c6_window_never_moves_backward_witness :
  advancing
    {| application := login;
       since := Some (Iso (D0 - 300000));
       until := Some (Iso (D0 - 240000));
       nextPage := None;
       apiQuotaResetDate := None;
       poll_interval_sec := 1 |}
    (run unit example_auth example_collector example_env
         {| application := login;
            since := Some (Iso (D0 - 300000));
            until := Some (Iso (D0 - 240000));
            nextPage := None;
            apiQuotaResetDate := None;
            poll_interval_sec := 1 |}
         [first_cycle; {| cycle_clock := frozen (D0 + 30 * 3600000);
                          cycle_fetch := Resolved [] None |}]).
Proof.
  refine (proj2 (c6_window_never_moves_backward unit example_auth
                   example_collector example_env D0 _ _ _ _ _ eq_refl _ _)).
  - vm_compute. discriminate.
  - exact I.
  - left. reflexivity.
  - cbn. repeat split; vm_compute; discriminate.
Defined.

(** ** C7, C8: the paginated fetcher *)

Section FetcherProperties.

Variable fetchPage : params -> page_result.

Lemma follow_S (n : nat) (p : params) :
  follow fetchPage (S n) p =
    match fetchPage p with
    | Page items (Some token) =>
        match follow fetchPage n (with_token p token) with
        | Some (rest, p') => Some (items ++ rest, p')
        | None => None
        end
    | _ => None
    end.
Proof. reflexivity. Qed.

Lemma fetchLoop_last_page (n : nat) :
  forall (more : nat) (p p' : params) (acc its last : list value),
    (n <= more)%nat ->
    follow fetchPage n p = Some (its, p') ->
    fetchPage p' = Page last None ->
    exists calls : list params,
      fetchLoop fetchPage more p acc
        = (calls, Resolved (acc ++ its ++ last) None)
      /\ length calls = S n.
Proof.
  induction n as [| n IH]; intros more p p' acc its last Hle Hf Hlast.
  - cbn [follow] in Hf. injection Hf as <- <-.
    exists [p]. split; [| reflexivity].
    destruct more; cbn [fetchLoop]; rewrite Hlast; reflexivity.
  - destruct more as [| more]; [lia |].
    cbn [follow] in Hf. cbn [fetchLoop].
    destruct (fetchPage p) as [items [token |] | error]; try discriminate.
    destruct (follow fetchPage n (with_token p token))
      as [[rest q] |] eqn:Hrest; [| discriminate].
    injection Hf as <- <-.
    destruct (IH more (with_token p token) q (acc ++ items) rest last
                ltac:(lia) Hrest Hlast) as (calls & Hcalls & Hlen).
    exists (p :: calls). rewrite Hcalls. split.
    + rewrite <- !app_assoc. reflexivity.
    + cbn [length]. rewrite Hlen. reflexivity.
Qed.

Lemma fetchLoop_budget_reached (more : nat) :
  forall (p p' : params) (acc its : list value),
    follow fetchPage (S more) p = Some (its, p') ->
    exists (calls : list params) (token : string),
      fetchLoop fetchPage more p acc
        = (calls, Resolved (acc ++ its) (Some token))
      /\ pageToken p' = Some token
      /\ length calls = S more.
Proof.
  induction more as [| more IH]; intros p p' acc its Hf.
  - cbn [follow] in Hf. cbn [fetchLoop].
    destruct (fetchPage p) as [items [token |] | error]; try discriminate.
    injection Hf as <- <-. exists [p], token.
    rewrite app_nil_r. repeat split.
  - rewrite follow_S in Hf. cbn [fetchLoop].
    destruct (fetchPage p) as [items [token |] | error]; try discriminate.
    destruct (follow fetchPage (S more) (with_token p token))
      as [[rest q] |] eqn:Hrest; [| discriminate].
    injection Hf as <- <-.
    destruct (IH (with_token p token) q (acc ++ items) rest Hrest)
      as (calls & token' & Hcalls & Htok & Hlen).
    exists (p :: calls), token'. rewrite Hcalls. split; [| split].
    + rewrite <- app_assoc. reflexivity.
    + exact Htok.
    + cbn [length]. rewrite Hlen. reflexivity.
Qed.

Lemma fetchLoop_page_error (n : nat) :
  forall (more : nat) (p p' : params) (acc its : list value)
         (error : api_error),
    (n <= more)%nat ->
    follow fetchPage n p = Some (its, p') ->
    fetchPage p' = PageError error ->
    exists calls : list params,
      fetchLoop fetchPage more p acc = (calls, Rejected error)
      /\ length calls = S n.
Proof.
  induction n as [| n IH]; intros more p p' acc its error Hle Hf Herr.
  - cbn [follow] in Hf. injection Hf as <- <-.
    exists [p]. split; [| reflexivity].
    destruct more; cbn [fetchLoop]; rewrite Herr; reflexivity.
  - destruct more as [| more]; [lia |].
    cbn [follow] in Hf. cbn [fetchLoop].
    destruct (fetchPage p) as [items [token |] | error']; try discriminate.
    destruct (follow fetchPage n (with_token p token))
      as [[rest q] |] eqn:Hrest; [| discriminate].
    injection Hf as <- <-.
    destruct (IH more (with_token p token) q (acc ++ items) rest error
                ltac:(lia) Hrest Herr) as (calls & Hcalls & Hlen).
    exists (p :: calls). rewrite Hcalls. split; [reflexivity |].
    cbn [length]. rewrite Hlen. reflexivity.
Qed.

(** C7: with a positive page budget the fetcher stops at the first page
    without token or at the budget, whichever comes first.  When the first
    [n] pages carry a token, page [n + 1] carries none and [n + 1] is
    within the budget, it makes [n + 1] calls and resolves with the items
    of these pages in upstream order and no continuation token.  When the
    first [budget] pages all carry a token, it makes [budget] calls and
    resolves with their items and the token of the last page.  With a
    budget of 3 and tokens on pages 1 and 2 only: three calls, all items,
    no continuation token. *)
Theorem c7_fetcher_stops_at_last_page_or_budget
    (baseParams : params) (accumulator : list value) (pageBudget : nat) :
  (0 < pageBudget)%nat ->
  (forall (n : nat) (its last : list value) (p' : params),
      (S n <= pageBudget)%nat ->
      follow fetchPage n baseParams = Some (its, p') ->
      fetchPage p' = Page last None ->
      exists calls : list params,
        fetchAll fetchPage baseParams accumulator (Some pageBudget)
          = (calls, Resolved (accumulator ++ its ++ last) None)
        /\ length calls = S n)
  /\ (forall (its : list value) (p' : params),
        follow fetchPage pageBudget baseParams = Some (its, p') ->
        exists (calls : list params) (token : string),
          fetchAll fetchPage baseParams accumulator (Some pageBudget)
            = (calls, Resolved (accumulator ++ its) (Some token))
          /\ pageToken p' = Some token
          /\ length calls = pageBudget)
  /\ (forall (i1 i2 i3 : list value) (t1 t2 : string),
        fetchPage baseParams = Page i1 (Some t1) ->
        fetchPage (with_token baseParams t1) = Page i2 (Some t2) ->
        fetchPage (with_token (with_token baseParams t1) t2) = Page i3 None ->
        fetchAll fetchPage baseParams [] (Some 3%nat)
          = ([baseParams; with_token baseParams t1;
              with_token (with_token baseParams t1) t2],
             Resolved (i1 ++ i2 ++ i3) None)).
Proof.
  intros Hpos. destruct pageBudget as [| b]; [lia |].
  unfold fetchAll. cbn [page_budget Nat.pred].
  split; [| split].
  - intros n its last p' Hn Hf Hlast.
    apply (fetchLoop_last_page n b baseParams p'); [lia | assumption ..].
  - intros its p' Hf.
    destruct (fetchLoop_budget_reached b baseParams p' accumulator its Hf)
      as (calls & token & H1 & H2 & H3).
    exists calls, token. repeat split; assumption.
  - intros i1 i2 i3 t1 t2 H1 H2 H3.
    cbn [fetchLoop]. rewrite H1. cbn [fetchLoop]. rewrite H2.
    cbn [fetchLoop]. rewrite H3. cbn [app]. rewrite <- app_assoc.
    reflexivity.
Qed.

End FetcherProperties.

Lemma c7_fetcher_stops_at_last_page_or_budget_witness :
  fetchAll three_pages (build_params example_state) [] (Some 3%nat)
  = ([build_params example_state;
      with_token (build_params example_state) "page-2";
      with_token (with_token (build_params example_state) "page-2") "page-3"],
     Resolved [VStr "event-1"; VStr "event-2"; VStr "event-3"; VStr "event-4"]
              None).
Proof.
  destruct (c7_fetcher_stops_at_last_page_or_budget three_pages
              (build_params example_state) [] 3%nat ltac:(lia))
    as (_ & _ & Hscn).
  exact (Hscn [VStr "event-1"; VStr "event-2"] [VStr "event-3"]
              [VStr "event-4"] "page-2" "page-3" eq_refl eq_refl eq_refl).
Defined.

Section QuotaDiscards.

Variable Credentials : Type.
Variable auth_fromJSON : string -> attempt Credentials.
Variable fetchPage : auth_client Credentials -> params -> page_result.
Variable this : collector.
Variable env : environment.

(** [utils.listEvents], as the fetcher run against [fetchPage]. *)
Let listEvents (client : auth_client Credentials) (p : params)
    (accumulator : list value) (budget : option nat) : listing :=
  snd (fetchAll (fetchPage client) p accumulator budget).

(** C8: when, within the page budget, a page request is answered with the
    daily-limit error after [n] pages that carried items and tokens, the
    fetch is rejected with that error, and the invocation calls back with
    an empty record list, none of the items of the [n] earlier pages, and
    with the given window under the quota cool-down of 900 seconds. *)
Theorem c8_quota_error_discards_accumulated_items
    (clk : clock) (st : state) (client : auth_client Credentials)
    (n : nat) (its : list value) (p' : params)
    (error : api_error) (rest : list string) :
  build_client Credentials auth_fromJSON this env = Returns client ->
  quota_in_effect clk st = false ->
  (n < page_budget (paws_max_pages_per_invocation env))%nat ->
  follow (fetchPage client) n (build_params st) = Some (its, p') ->
  fetchPage client p' = PageError error ->
  errors error = Some (dailyLimitExceeded :: rest) ->
  snd (fetchAll (fetchPage client) (build_params st) []
                (paws_max_pages_per_invocation env)) = Rejected error
  /\ snd (pawsGetLogs Credentials auth_fromJSON listEvents this env clk st)
     = Callback []
         {| application := application st;
            since := since st;
            until := until st;
            nextPage := nextPage st;
            apiQuotaResetDate := quota_reset_date env clk;
            poll_interval_sec := 900 |}
         900.
Proof.
  intros Hc Hgate Hn Hf Hpage Herr.
  assert (Hrej : snd (fetchAll (fetchPage client) (build_params st) []
                        (paws_max_pages_per_invocation env))
                 = Rejected error).
  { unfold fetchAll.
    destruct (fetchLoop_page_error (fetchPage client) n
                (Nat.pred (page_budget (paws_max_pages_per_invocation env)))
                (build_params st) p' [] its error ltac:(lia) Hf Hpage)
      as (calls & Hcalls & _).
    rewrite Hcalls. reflexivity. }
  split; [exact Hrej |].
  unfold pawsGetLogs. rewrite Hc, Hgate. cbn [snd].
  unfold listEvents. rewrite Hrej.
  unfold on_rejected. rewrite Herr.
  unfold dailyLimitExceeded at 1 2. rewrite String.eqb_refl. reflexivity.
Qed.

End QuotaDiscards.

Lemma c8_quota_error_discards_accumulated_items_witness :
  follow (quota_on_page_2 example_client) 1 (build_params example_state)
    = Some ([VStr "event-1"; VStr "event-2"],
            with_token (build_params example_state) "page-2")
  /\ snd (pawsGetLogs unit example_auth
            (fun client p accumulator budget =>
               snd (fetchAll (quota_on_page_2 client) p accumulator budget))
            example_collector example_env (frozen D0) example_state)
     = Callback []
         {| application := login;
            since := Some (Iso D0);
            until := Some (Iso (D0 + 60000));
            nextPage := None;
            apiQuotaResetDate := quota_reset_date example_env (frozen D0);
            poll_interval_sec := 900 |}
         900.
Proof.
  split; [reflexivity |].
  refine (proj2 (c8_quota_error_discards_accumulated_items unit example_auth
                   quota_on_page_2 example_collector example_env (frozen D0)
                   example_state example_client 1%nat
                   [VStr "event-1"; VStr "event-2"]
                   (with_token (build_params example_state) "page-2")
                   daily_limit_error [] _ _ _ _ _ _)).
  - reflexivity.
  - reflexivity.
  - cbn. lia.
  - reflexivity.
  - reflexivity.
  - reflexivity.
Defined.

(** ** C9: record framing *)

Section FramingProperties.

Variable getMsgTs : value -> list (list string) -> value.
Variable getMsgTypeId : value -> list (list string) -> value.
Variable JSON_stringify : value -> string.
Variable template_literal : value -> string.

Let formatLog :=
  pawsFormatLog getMsgTs getMsgTypeId JSON_stringify template_literal.

Lemma get_prop_returns (v : value) (key : string) :
  is_nullish v = false -> exists x : value, get_prop v key = Returns x.
Proof. destruct v; intros H; try discriminate; eexists; reflexivity. Qed.

(** C9: as long as the time stamp parser of al-collector-js hands back a
    value that is neither [null] nor [undefined], which it does also when
    it finds no time stamp, every event is framed: the record holds the
    serialized event as [message], the type tag [json/gsuite], priority 11,
    the program name and the seconds of the time stamp; [messageTypeId] is
    left out exactly when the type identifier is not found, and
    [messageTsUs] exactly when there are no microseconds. *)
Theorem c9_framing_never_drops_a_record (msg : value) :
  (forall (m : value) (paths : list (list string)),
      is_nullish (getMsgTs m paths) = false) ->
  exists (formattedMsg : gmap string value) (sec usec : value),
    formatLog msg = Returns formattedMsg
    /\ get_prop (getMsgTs msg tsPaths) "sec" = Returns sec
    /\ get_prop (getMsgTs msg tsPaths) "usec" = Returns usec
    /\ formattedMsg !! "message" = Some (VStr (JSON_stringify msg))
    /\ formattedMsg !! "messageType" = Some (VStr "json/gsuite")
    /\ formattedMsg !! "priority" = Some (VNum (11 # 1))
    /\ formattedMsg !! "progName" = Some (VStr "GsuiteCollector")
    /\ formattedMsg !! "messageTs" = Some sec
    /\ formattedMsg !! "messageTypeId"
       = (if is_nullish (getMsgTypeId msg typeIdPaths) then None
          else Some (VStr (template_literal (getMsgTypeId msg typeIdPaths))))
    /\ formattedMsg !! "messageTsUs"
       = (if truthy usec then Some usec else None).
Proof.
  intros Hts.
  destruct (get_prop_returns (getMsgTs msg tsPaths) "sec" (Hts msg tsPaths))
    as [sec Hsec].
  destruct (get_prop_returns (getMsgTs msg tsPaths) "usec" (Hts msg tsPaths))
    as [usec Husec].
  unfold formatLog, pawsFormatLog. rewrite Hsec, Husec.
  eexists; exists sec, usec. split; [reflexivity |].
  split; [reflexivity |]. split; [reflexivity |].
  destruct (is_nullish (getMsgTypeId msg typeIdPaths));
    destruct (truthy usec); repeat split; by simplify_map_eq.
Qed.

End FramingProperties.

Lemma c9_framing_never_drops_a_record_witness :
  exists formattedMsg : gmap string value,
    pawsFormatLog lookup_fails_ts lookup_fails_typeId example_stringify
      example_stringify (VObj [("actor", VStr "someone")])
    = Returns formattedMsg
    /\ formattedMsg !! "message" = Some (VStr "{}")
    /\ formattedMsg !! "messageTypeId" = None
    /\ formattedMsg !! "messageTsUs" = None.
Proof.
  destruct (c9_framing_never_drops_a_record lookup_fails_ts
              lookup_fails_typeId example_stringify example_stringify
              (VObj [("actor", VStr "someone")]) (fun _ _ => eq_refl))
    as (formattedMsg & sec & usec & Hf & _ & Hus & Hm & _ & _ & _ & _ & Hid & Hu).
  exists formattedMsg. split; [exact Hf |]. split; [exact Hm |].
  split; [exact Hid |].
  injection Hus as <-. exact Hu.
Defined.

(** ** C10: initialization *)

(** C10, as stated, fails for a start date that is no date: initialization
    calls back with a state for the target all the same, with the string as
    its [since] and [null] as its [until]. *)
Lemma c10_unparsable_start_is_not_fatal :
  Moment.parse (paws_collection_start_ts garbled_env) = None
  /\ pawsInitCollectionState example_collector garbled_env D0
     = InitCallback
         [{| application := login;
             since := Some (Raw "yesterday-ish");
             until := None;
             nextPage := None;
             apiQuotaResetDate := None;
             poll_interval_sec := 1 |}]
         1.
Proof. split; reflexivity. Qed.

(** C10, amended: initialization is fatal, and hands no state to the host,
    exactly when the target list is unset, is not JSON text or is not a JSON
    array.  The start date is not examined: for a target list that is an
    array, initialization calls back with one state per target and a delay of
    one second, each state starting at the configured start date as it is
    written, or five minutes before the clock when none is configured. *)
Theorem c10_malformed_target_list_is_fatal
    (this : collector) (env : environment) (clock : Z) :
  match paws_collector_param_string_2 env with
  | NotJson => pawsInitCollectionState this env clock = InitThrows SyntaxError
  | Parsed v =>
      if is_array v then
        exists initialStates : list state,
          pawsInitCollectionState this env clock
            = InitCallback initialStates 1
          /\ Parsed (VArr (map application initialStates))
             = paws_collector_param_string_2 env
          /\ Forall (fun st : state =>
                       since st =
                         if datestr_truthy (paws_collection_start_ts env)
                         then paws_collection_start_ts env
                         else Some (Iso (clock - 5 * 60000)))
                    initialStates
      else pawsInitCollectionState this env clock = InitThrows TypeError
  end.
Proof.
  unfold pawsInitCollectionState.
  destruct (paws_collector_param_string_2 env) as [| v]; [reflexivity |].
  destruct v as [| | b | q | s | apps | fields]; try reflexivity.
  cbn [is_array]. eexists. split; [reflexivity |]. split.
  - rewrite map_map. cbn [application]. rewrite map_id. reflexivity.
  - apply Forall_forall. intros st Hin. apply list_elem_of_In in Hin.
    apply in_map_iff in Hin. destruct Hin as (a & <- & _).
    cbn [since]. destruct (datestr_truthy _); reflexivity.
Qed.

(** * Further properties of the collector *)

(** ** The invocation: credentials, gate, errors *)

Lemma string_truthy_some (s : option string) :
  string_truthy s = true <-> exists k : string, s = Some k /\ k <> EmptyString.
Proof.
  destruct s as [k |]; cbn.
  - destruct (String.eqb_spec k EmptyString) as [-> | Hne]; cbn.
    + split; [discriminate | intros (k' & [= <-] & Hk); contradiction].
    + split; [intros _; exists k; split; [reflexivity | exact Hne] | reflexivity].
  - split; [discriminate | intros (k & Hk & _); discriminate].
Qed.

Lemma next_poll_interval (this : collector) (now : Z) (st : state) :
  poll_interval_sec (_getNextCollectionState this now st) = 1
  \/ poll_interval_sec (_getNextCollectionState this now st) = pollInterval this.
Proof.
  unfold _getNextCollectionState. cbn [poll_interval_sec].
  destruct (Moment.gt _ (pollInterval this)); [left | right]; reflexivity.
Qed.

(** X3: the quota gate is in effect exactly when [apiQuotaResetDate] is a
    date strictly after the clock: at the reset instant itself, and for a
    reset date that is [null], empty or no date, the invocation fetches. *)
Theorem x3_quota_gate_iff (clk : clock) (st : state) :
  quota_in_effect clk st = true
  <-> exists r : Z, apiQuotaResetDate st = Some (Iso r) /\ at_gate clk < r.
Proof.
  unfold quota_in_effect. destruct (apiQuotaResetDate st) as [[r | s] |].
  - cbn. rewrite Z.ltb_lt. split.
    + intros H. exists r. split; [reflexivity | exact H].
    + intros (r' & [= <-] & H). exact H.
  - cbn. rewrite andb_false_r.
    split; [discriminate | intros (r & H & _); discriminate].
  - cbn. split; [discriminate | intros (r & H & _); discriminate].
Qed.

Section InvocationExtras.

Variable Credentials : Type.
Variable auth_fromJSON : string -> attempt Credentials.
Variable listEvents :
  auth_client Credentials -> params -> list value -> option nat -> listing.
Variable this : collector.
Variable env : environment.

Let getLogs := pawsGetLogs Credentials auth_fromJSON listEvents this env.
Let client_of := build_client Credentials auth_fromJSON this env.

(** X1: without credentials, unset or empty, the invocation throws the
    "not found" error before it looks at the state: nothing is fetched and
    the callback is not called, also for a state the quota gate would hold
    back. *)
Theorem x1_missing_credentials_throw_before_fetch (clk : clock) (st : state) :
  string_truthy (secret this) = false ->
  getLogs clk st
  = ([], Throws (Error "The $CREDS environment variable was not found!")).
Proof.
  intros H. unfold getLogs, pawsGetLogs, build_client.
  destruct (secret this) as [k |]; [| reflexivity].
  cbn in H. destruct (String.eqb k EmptyString); [reflexivity | discriminate].
Qed.

(** X2: with credentials present, what the authentication library throws
    is thrown by the invocation, and an unset scope variable makes it throw a
    [TypeError]; in both cases nothing is fetched. *)
Theorem x2_client_setup_failure_throws_before_fetch
    (clk : clock) (st : state) (keysEnvVar : string) :
  secret this = Some keysEnvVar ->
  keysEnvVar <> EmptyString ->
  (forall e : exception,
      auth_fromJSON keysEnvVar = Raises e -> getLogs clk st = ([], Throws e))
  /\ (forall keys : Credentials,
        auth_fromJSON keysEnvVar = Returns keys ->
        paws_collector_param_string_1 env = None ->
        getLogs clk st = ([], Throws TypeError)).
Proof.
  intros Hs Hne. unfold getLogs, pawsGetLogs, build_client. rewrite Hs.
  destruct (String.eqb_spec keysEnvVar EmptyString) as [-> | _];
    [contradiction |].
  split.
  - intros e He. rewrite He. reflexivity.
  - intros keys Hk Hscope. rewrite Hk, Hscope. reflexivity.
Qed.

(** X4: an invocation calls the fetcher at most once, with the parameters
    built from the state and an empty accumulator, and it calls it exactly
    when the client can be built and the quota gate is not in effect. *)
Theorem x4_fetch_attempted_exactly_when_ungated (clk : clock) (st : state) :
  (fst (getLogs clk st) = [build_params st] \/ fst (getLogs clk st) = [])
  /\ (fst (getLogs clk st) = [build_params st]
      <-> (exists client : auth_client Credentials, client_of = Returns client)
          /\ quota_in_effect clk st = false).
Proof.
  unfold getLogs, pawsGetLogs. fold client_of.
  destruct client_of as [client | e].
  - destruct (quota_in_effect clk st); cbn [fst].
    + split; [right; reflexivity |].
      split; [discriminate | intros [_ H]; discriminate].
    + split; [left; reflexivity |].
      split; [intros _; split; [exists client |]; reflexivity | reflexivity].
  - cbn [fst]. split; [right; reflexivity |].
    split; [discriminate | intros [[client H] _]; discriminate].
Qed.

(** X5: an upstream error whose first reason is not the daily limit is
    handed to the callback as it is, without records and without a state;
    later entries of [errors] are not looked at, so a daily-limit reason in
    second place does not start the quota back-off. *)
Theorem x5_other_api_error_is_passed_to_callback
    (clk : clock) (st : state) (client : auth_client Credentials)
    (error : api_error) (reason : string) (rest : list string) :
  client_of = Returns client ->
  quota_in_effect clk st = false ->
  listEvents client (build_params st) []
             (paws_max_pages_per_invocation env) = Rejected error ->
  errors error = Some (reason :: rest) ->
  reason <> dailyLimitExceeded ->
  getLogs clk st = ([build_params st], CallbackError error).
Proof.
  intros Hc Hgate Hrej Herr Hne.
  unfold getLogs, pawsGetLogs. fold client_of. rewrite Hc, Hgate, Hrej.
  unfold on_rejected. rewrite Herr.
  destruct (String.eqb_spec reason dailyLimitExceeded); [contradiction |].
  reflexivity.
Qed.

(** X6: an upstream error that has no [errors] array, or an empty one,
    makes the rejection handler itself throw a [TypeError]: the callback is
    never called, neither with the error nor with a state. *)
Theorem x6_error_without_reasons_is_unhandled
    (clk : clock) (st : state) (client : auth_client Credentials)
    (error : api_error) :
  client_of = Returns client ->
  quota_in_effect clk st = false ->
  listEvents client (build_params st) []
             (paws_max_pages_per_invocation env) = Rejected error ->
  errors error = None \/ errors error = Some [] ->
  getLogs clk st = ([build_params st], Unhandled TypeError).
Proof.
  intros Hc Hgate Hrej Herr.
  unfold getLogs, pawsGetLogs. fold client_of. rewrite Hc, Hgate, Hrej.
  unfold on_rejected. destruct Herr as [-> | ->]; reflexivity.
Qed.

(** X7: whenever the invocation calls back with a state, the delay it
    hands over is that state's [poll_interval_sec], and the delay is positive
    as long as the configured poll interval and the interval of the incoming
    state are. *)
Theorem x7_delay_is_new_state_interval_and_positive
    (clk : clock) (st st' : state) (logs : list value) (delay : Z) :
  snd (getLogs clk st) = Callback logs st' delay ->
  delay = poll_interval_sec st'
  /\ (0 < pollInterval this -> 0 < poll_interval_sec st -> 0 < delay).
Proof.
  unfold getLogs, pawsGetLogs. destruct (build_client _ _ _ _); [| discriminate].
  destruct (quota_in_effect clk st); cbn [snd].
  - intros [= <- <- <-]. split; [reflexivity | intros _ H; exact H].
  - destruct (listEvents _ _ _ _) as [acc [token |] | error].
    + unfold on_resolved. intros [= <- <- <-]. split; [reflexivity |].
      intros _ _. reflexivity.
    + unfold on_resolved. cbv zeta. intros [= <- <- <-].
      split; [reflexivity |]. intros HP _.
      change (0 < poll_interval_sec
                    (_getNextCollectionState this (at_next clk) st)).
      destruct (next_poll_interval this (at_next clk) st) as [E | E];
        rewrite E; lia.
    + unfold on_rejected. destruct (errors error) as [[| reason rest] |];
        try discriminate.
      destruct (String.eqb reason dailyLimitExceeded); [| discriminate].
      intros [= <- <- <-]. split; [reflexivity |]. intros _ _. reflexivity.
Qed.

(** X21: the records an invocation hands over are exactly the accumulator
    of a resolved fetch, or none at all; and the window of the state it hands
    over differs from the incoming one only when the fetch resolved without
    continuation token: never on an error, on the quota gate or between the
    pages of a window. *)
Theorem x21_window_changes_only_when_drained
    (clk : clock) (st st' : state) (logs : list value) (delay : Z) :
  snd (getLogs clk st) = Callback logs st' delay ->
  (logs = []
   \/ exists (client : auth_client Credentials) (token : option string),
        listEvents client (build_params st) []
                   (paws_max_pages_per_invocation env) = Resolved logs token)
  /\ (since st' <> since st \/ until st' <> until st ->
      exists client : auth_client Credentials,
        listEvents client (build_params st) []
                   (paws_max_pages_per_invocation env) = Resolved logs None).
Proof.
  unfold getLogs, pawsGetLogs.
  destruct (build_client _ _ _ _) as [client |]; [| discriminate].
  destruct (quota_in_effect clk st); cbn [snd].
  - intros [= <- <- <-]. split; [left; reflexivity |].
    intros [H | H]; contradiction.
  - destruct (listEvents _ _ _ _) as [acc [token |] | error] eqn:Hfetch.
    + unfold on_resolved. intros [= <- <- <-].
      split; [right; exists client, (Some token); exact Hfetch |].
      cbn [_getNextCollectionStateWithNextPage since until].
      intros [H | H]; contradiction.
    + unfold on_resolved. intros [= <- <- <-].
      split; [right; exists client, None; exact Hfetch |].
      intros _. exists client. exact Hfetch.
    + unfold on_rejected. destruct (errors error) as [[| reason rest] |];
        try discriminate.
      destruct (String.eqb reason dailyLimitExceeded); [| discriminate].
      intros [= <- <- <-]. split; [left; reflexivity |].
      cbn [since until]. intros [H | H]; contradiction.
Qed.

End InvocationExtras.

(** ** The quota back-off *)

Lemma seconds_to_end_of_day (tz c : Z) :
  0 <= Z.quot ((c + tz) / 86400000 * 86400000 + 86400000 - 1 - tz - c) 1000
    <= 86399.
Proof.
  set (x := (c + tz) / 86400000 * 86400000 + 86400000 - 1 - tz - c).
  assert (Hdiv : (c + tz) / 86400000 * 86400000 <= c + tz
                 < (c + tz) / 86400000 * 86400000 + 86400000).
  { pose proof (Z.mul_div_le (c + tz) 86400000 ltac:(lia)).
    pose proof (Z.mul_succ_div_gt (c + tz) 86400000 ltac:(lia)). lia. }
  assert (Hx : 0 <= x < 86400000) by (unfold x; lia).
  rewrite Z.quot_div_nonneg by lia.
  pose proof (Z.mul_div_le x 1000 ltac:(lia)).
  pose proof (Z.mul_succ_div_gt x 1000 ltac:(lia)). lia.
Qed.


Section QuotaRoundTrip.

Variable Credentials : Type.
Variable auth_fromJSON : string -> attempt Credentials.
Variable listEvents :
  auth_client Credentials -> params -> list value -> option nat -> listing.
Variable this : collector.
Variable env : environment.

(** X9: the state handed over on a daily-limit error holds back every later
    invocation whose clock is before its reset date, whatever the upstream
    would answer, and hands the same state over again; from the reset date
    on, an invocation fetches again, with the very parameters, window and
    page token, of the request that hit the limit. *)
Theorem x9_quota_round_trip
    (clk : clock) (st : state) (client : auth_client Credentials)
    (error : api_error) (rest : list string) :
  build_client Credentials auth_fromJSON this env = Returns client ->
  quota_in_effect clk st = false ->
  listEvents client (build_params st) []
             (paws_max_pages_per_invocation env) = Rejected error ->
  errors error = Some (dailyLimitExceeded :: rest) ->
  exists (st' : state) (r : Z),
    snd (pawsGetLogs Credentials auth_fromJSON listEvents this env clk st)
      = Callback [] st' 900
    /\ apiQuotaResetDate st' = Some (Iso r)
    /\ at_reset clk < r
    /\ (forall (upstream : auth_client Credentials -> params -> list value
                           -> option nat -> listing) (clk' : clock),
          at_gate clk' < r ->
          pawsGetLogs Credentials auth_fromJSON upstream this env clk' st'
            = ([], Callback [] st' 900))
    /\ (forall (upstream : auth_client Credentials -> params -> list value
                           -> option nat -> listing) (clk' : clock),
          r <= at_gate clk' ->
          fst (pawsGetLogs Credentials auth_fromJSON upstream this env clk' st')
            = [build_params st]).
Proof.
  intros Hc Hgate Hrej Herr.
  pose proof (seconds_to_end_of_day (tz_offset_ms env)
                (at_pst clk - 28800000)) as Hd.
  assert (Hr : exists r : Z,
             quota_reset_date env clk = Some (Iso r) /\ at_reset clk < r).
  { rewrite (quota_reset_date_eq env clk).
    eexists. split; [reflexivity | lia]. }
  destruct Hr as (r & Hr & Hlo).
  exists {| application := application st;
            since := since st;
            until := until st;
            nextPage := nextPage st;
            apiQuotaResetDate := Some (Iso r);
            poll_interval_sec := 900 |}, r.
  split; [| split; [reflexivity | split; [lia | split]]].
  - unfold pawsGetLogs. rewrite Hc, Hgate, Hrej. cbn [snd].
    unfold on_rejected. rewrite Herr.
    unfold dailyLimitExceeded at 1 2. rewrite String.eqb_refl, Hr.
    reflexivity.
  - intros upstream clk' Hlt. unfold pawsGetLogs. rewrite Hc.
    unfold quota_in_effect. cbn.
    destruct (Z.ltb_spec (at_gate clk') r); [reflexivity | lia].
  - intros upstream clk' Hge. unfold pawsGetLogs. rewrite Hc.
    unfold quota_in_effect. cbn.
    destruct (Z.ltb_spec (at_gate clk') r); [lia | reflexivity].
Qed.

(** X11: after a fetch that resolved, the next invocation is never held
    back by the quota gate and makes one request.  When the fetch came with
    a non-empty continuation token, that request carries the token and the
    window of the request before; when it came with none, or with an empty
    one, the request carries no token. *)
Theorem x11_next_request_resumes_or_restarts
    (clk : clock) (st : state) (client : auth_client Credentials)
    (accumulator : list value) (token : option string) :
  build_client Credentials auth_fromJSON this env = Returns client ->
  quota_in_effect clk st = false ->
  listEvents client (build_params st) []
             (paws_max_pages_per_invocation env)
    = Resolved accumulator token ->
  exists (st' : state) (delay : Z),
    snd (pawsGetLogs Credentials auth_fromJSON listEvents this env clk st)
      = Callback accumulator st' delay
    /\ (forall (upstream : auth_client Credentials -> params -> list value
                           -> option nat -> listing) (clk' : clock),
          fst (pawsGetLogs Credentials auth_fromJSON upstream this env clk' st')
            = [build_params st'])
    /\ pageToken (build_params st')
       = (if string_truthy token then token else None)
    /\ (token <> None ->
        startTime (build_params st') = since st
        /\ endTime (build_params st') = until st).
Proof.
  intros Hc Hgate Hres.
  assert (Hrun : forall st' : state,
             apiQuotaResetDate st' = None ->
             forall upstream clk',
               fst (pawsGetLogs Credentials auth_fromJSON upstream this env
                      clk' st') = [build_params st']).
  { intros st' Hq upstream clk'. unfold pawsGetLogs. rewrite Hc.
    unfold quota_in_effect. rewrite Hq. reflexivity. }
  unfold pawsGetLogs at 1. rewrite Hc, Hgate, Hres. cbn [snd].
  unfold on_resolved. destruct token as [t |].
  - eexists _, _. split; [reflexivity |].
    split; [apply Hrun; reflexivity |].
    split; [reflexivity |]. intros _. split; reflexivity.
  - eexists _, _. split; [reflexivity |].
    split; [apply Hrun; reflexivity |].
    split; [reflexivity |]. intros H. contradiction.
Qed.

(** X8: no invocation changes the target: along every run the
    [application] of each state is that of the state the run started from. *)
Theorem x8_application_never_changes (cs : list cycle) (st : state) :
  Forall (fun st' : state => application st' = application st)
         (run Credentials auth_fromJSON this env st cs).
Proof.
  assert (Hstep : forall (st0 : state) (c : cycle),
             application (persisted Credentials auth_fromJSON this env st0 c)
             = application st0).
  { intros st0 c. unfold persisted, pawsGetLogs.
    destruct (build_client _ _ _ _); [| reflexivity].
    destruct (quota_in_effect _ st0); [reflexivity |]. cbn [snd].
    destruct (cycle_fetch c) as [acc [t |] | error]; try reflexivity.
    unfold on_rejected. destruct (errors error) as [[| reason rest'] |];
      try reflexivity.
    destruct (String.eqb reason dailyLimitExceeded); reflexivity. }
  revert st. induction cs as [| c rest IH]; intros st; cbn [run].
  - constructor.
  - constructor; [apply Hstep |].
    eapply Forall_impl; [apply IH |].
    cbn. intros st' E. rewrite E. apply Hstep.
Qed.

End QuotaRoundTrip.

(** ** The window: progress, gaps and repair *)

Lemma next_state_unparsable (this : collector) (now : Z) (st : state) :
  Moment.parse (until st) = None ->
  _getNextCollectionState this now st =
    {| application := application st;
       since := until st;
       until := None;
       nextPage := None;
       apiQuotaResetDate := None;
       poll_interval_sec := pollInterval this |}.
Proof.
  intros H. unfold _getNextCollectionState. rewrite H.
  cbv beta iota zeta delta [Moment.isAfter Moment.now]. rewrite H.
  reflexivity.
Qed.

(** X14: a collector that is two hours or more behind, with a poll interval
    below one hour, drains a window that starts where the last one ended and
    ends an hour or more before the clock, and asks to be invoked again after
    one second. *)
Theorem x14_lagging_collector_polls_again_at_once
    (this : collector) (now u : Z) (st : state) :
  until st = Some (Iso u) ->
  pollInterval this < 3600 ->
  2 * 3600000 <= now - u ->
  exists nu : Z,
    since (_getNextCollectionState this now st) = Some (Iso u)
    /\ until (_getNextCollectionState this now st) = Some (Iso nu)
    /\ u < nu
    /\ nu + 3600000 <= now
    /\ poll_interval_sec (_getNextCollectionState this now st) = 1.
Proof.
  intros Hu HP Hlag. rewrite (next_state_drained this now u st Hu).
  cbn [since until poll_interval_sec]. rewrite Z.min_l by lia.
  assert (Hb : 1 < behindHours now u).
  { unfold behindHours. apply (quot_nonneg_le (now - u) 3600000 1); lia. }
  assert (Hw : (window_width this now u = 86400000
                /\ 25 * 3600000 <= now - u)
               \/ window_width this now u = 3600000).
  { destruct (window_width_cases this now u) as (H24 & H1 & _).
    destruct (Z.lt_ge_cases 24 (behindHours now u)) as [Hgt | Hle].
    - left. split; [exact (H24 Hgt) |].
      apply (quot_nonneg_le (now - u) 3600000 24); [lia | lia | exact Hgt].
    - right. apply H1. lia. }
  exists (u + window_width this now u).
  assert (Hend : u < u + window_width this now u
                 /\ u + window_width this now u + 3600000 <= now).
  { destruct Hw as [[-> Hfar] | ->]; lia. }
  split; [reflexivity |]. split; [reflexivity |].
  split; [lia |]. split; [lia |].
  unfold drained_delay.
  destruct (Z.ltb_spec (pollInterval this)
              (Z.quot (now - (u + window_width this now u)) 1000))
    as [_ | Hge]; [reflexivity |].
  assert (3599 < Z.quot (now - (u + window_width this now u)) 1000);
    [| lia].
  apply (quot_nonneg_le (now - (u + window_width this now u)) 1000 3599); lia.
Qed.

(** X15: a collector whose window ends at the clock or after it, with a poll
    interval that is not negative, next asks for the window from the clock to
    one poll interval later and waits the full poll interval. *)
Theorem x15_caught_up_collector_waits_full_interval
    (this : collector) (now u : Z) (st : state) :
  until st = Some (Iso u) ->
  now <= u ->
  0 <= pollInterval this ->
  since (_getNextCollectionState this now st) = Some (Iso now)
  /\ until (_getNextCollectionState this now st)
     = Some (Iso (now + pollInterval this * 1000))
  /\ poll_interval_sec (_getNextCollectionState this now st)
     = pollInterval this.
Proof.
  intros Hu Hle HP. rewrite (next_state_drained this now u st Hu).
  cbn [since until poll_interval_sec]. rewrite Z.min_r by lia.
  destruct (window_width_bounds this now now HP ltac:(lia)) as (_ & _ & Hw).
  rewrite (Hw eq_refl). split; [reflexivity |]. split; [reflexivity |].
  apply drained_delay_not_behind.
  replace (now - (now + pollInterval this * 1000))
    with (- (pollInterval this * 1000)) by lia.
  rewrite Z.quot_opp_l by lia. rewrite Z.quot_mul by lia. lia.
Qed.

(** X16: draining a window that has ended, with a positive poll interval,
    makes progress: the next window starts exactly where the drained one
    ended, ends strictly later, by one poll interval, one hour or 24 hours,
    and ends at most one poll interval after the clock. *)
Theorem x16_drained_window_advances
    (this : collector) (now u : Z) (st : state) :
  until st = Some (Iso u) ->
  u <= now ->
  0 < pollInterval this ->
  exists nu : Z,
    since (_getNextCollectionState this now st) = until st
    /\ until (_getNextCollectionState this now st) = Some (Iso nu)
    /\ u < nu
    /\ (nu - u = pollInterval this * 1000
        \/ nu - u = 3600000 \/ nu - u = 86400000)
    /\ nu <= now + pollInterval this * 1000.
Proof.
  intros Hu Hle HP. rewrite (next_state_drained this now u st Hu), Hu.
  cbn [since until]. rewrite Z.min_l by lia.
  exists (u + window_width this now u).
  destruct (window_width_bounds this now u ltac:(lia) Hle) as (_ & Hend & _).
  assert (Hw : window_width this now u = pollInterval this * 1000
               \/ window_width this now u = 3600000
               \/ window_width this now u = 86400000).
  { unfold window_width. destruct (24 <? _); [right; right; reflexivity |].
    destruct (1 <? _); [right; left; reflexivity | left; reflexivity]. }
  split; [reflexivity |]. split; [reflexivity |].
  split; [lia |]. split; [lia | exact Hend].
Qed.

Section WindowRuns.

Variable Credentials : Type.
Variable auth_fromJSON : string -> attempt Credentials.
Variable this : collector.
Variable env : environment.

(** X12: a window whose [until] is [null] or no date is never repaired:
    draining it gives a state that starts at that [until], ends at [null] and
    waits the poll interval, and along every run from it each state has an
    [until] that is no date. *)
Theorem x12_unparsable_window_is_never_repaired
    (cs : list cycle) (st : state) :
  Moment.parse (until st) = None ->
  (forall now : Z,
      since (_getNextCollectionState this now st) = until st
      /\ until (_getNextCollectionState this now st) = None
      /\ poll_interval_sec (_getNextCollectionState this now st)
         = pollInterval this)
  /\ Forall (fun st' : state => Moment.parse (until st') = None)
            (run Credentials auth_fromJSON this env st cs).
Proof.
  intros H. split.
  - intros now. rewrite (next_state_unparsable this now st H).
    repeat split.
  - revert st H. induction cs as [| c rest IH]; intros st H; cbn [run].
    + constructor.
    + assert (Hnext : Moment.parse
                        (until (persisted Credentials auth_fromJSON this env
                                  st c)) = None).
      { destruct (persisted_cases Credentials auth_fromJSON this env st c)
          as [[_ Eu] | E].
        - rewrite Eu. exact H.
        - rewrite E, (next_state_unparsable this _ st H). reflexivity. }
      constructor; [exact Hnext | apply IH, Hnext].
Qed.

Lemma persisted_gapless (st : state) (c : cycle) (s u : Z) :
  0 <= pollInterval this ->
  since st = Some (Iso s) -> until st = Some (Iso u) -> s <= u ->
  exists s' u' : Z,
    since (persisted Credentials auth_fromJSON this env st c) = Some (Iso s')
    /\ until (persisted Credentials auth_fromJSON this env st c)
       = Some (Iso u')
    /\ s' <= u /\ s' <= u'.
Proof.
  intros HP Hs Hu Hsu.
  destruct (persisted_cases Credentials auth_fromJSON this env st c)
    as [[Es Eu] | E].
  - exists s, u. rewrite Es, Eu. repeat split; try assumption; lia.
  - rewrite E, (next_state_drained this (at_next (cycle_clock c)) u st Hu).
    cbn [since until]. set (now := at_next (cycle_clock c)).
    destruct (window_width_bounds this now (Z.min u now) HP
                (min_until_now_le u now)) as (Hw & _ & _).
    eexists _, _. split; [reflexivity |]. split; [reflexivity |]. lia.
Qed.

(** X13: along every run from a state with [since <= until], for a poll
    interval that is not negative and whatever the clock does, no window
    starts after the end of the window before it: no stretch of time is
    left out between two windows. *)
Theorem x13_windows_leave_no_gap
    (cs : list cycle) (st : state) (s u : Z) :
  0 <= pollInterval this ->
  since st = Some (Iso s) -> until st = Some (Iso u) -> s <= u ->
  gapless st (run Credentials auth_fromJSON this env st cs).
Proof.
  intros HP. revert st s u.
  induction cs as [| c rest IH]; intros st s u Hs Hu Hsu; cbn [run gapless].
  - exact I.
  - destruct (persisted_gapless st c s u HP Hs Hu Hsu)
      as (s' & u' & Es & Eu & H1 & H2).
    split.
    + rewrite Es, Hu. exact H1.
    + exact (IH _ s' u' Es Eu H2).
Qed.

(** X17: initialization with a start date that is a date, or with none (an
    unset or empty variable, read as five minutes before the clock), makes
    the first invocation for each target, whenever it runs, request exactly
    the window from the start date to one poll interval later, without page
    token; that invocation is to follow after one second. *)
Theorem x17_first_request_after_initialization
    (t0 s0 : Z) (initialStates : list state) (delay : Z) (st : state)
    (client : auth_client Credentials) :
  paws_collection_start_ts env = Some (Iso s0)
  \/ (datestr_truthy (paws_collection_start_ts env) = false
      /\ s0 = t0 - 5 * 60000) ->
  pawsInitCollectionState this env t0 = InitCallback initialStates delay ->
  In st initialStates ->
  build_client Credentials auth_fromJSON this env = Returns client ->
  delay = 1
  /\ poll_interval_sec st = 1
  /\ forall (upstream : auth_client Credentials -> params -> list value
                        -> option nat -> listing) (clk : clock),
       fst (pawsGetLogs Credentials auth_fromJSON upstream this env clk st)
       = [{| pageToken := None;
             startTime := Some (Iso s0);
             endTime := Some (Iso (s0 + pollInterval this * 1000));
             userKey := "all";
             applicationName := application st |}].
Proof.
  intros Hstart Hinit Hin Hc. unfold pawsInitCollectionState in Hinit.
  destruct (paws_collector_param_string_2 env) as [| v]; [discriminate |].
  destruct v as [| | b | q | x | apps | fields]; try discriminate.
  injection Hinit as <- <-. apply in_map_iff in Hin.
  destruct Hin as (a & <- & _).
  split; [reflexivity |]. split; [reflexivity |].
  intros upstream clk. unfold pawsGetLogs. rewrite Hc.
  destruct Hstart as [E | [E ->]]; rewrite E; reflexivity.
Qed.

End WindowRuns.

(** ** Framing: keys and failure *)

Section FramingExtras.

Variable getMsgTs : value -> list (list string) -> value.
Variable getMsgTypeId : value -> list (list string) -> value.
Variable JSON_stringify : value -> string.
Variable template_literal : value -> string.

Let formatLog :=
  pawsFormatLog getMsgTs getMsgTypeId JSON_stringify template_literal.


(** X18: a framed record holds the five keys [messageTs], [priority],
    [progName], [message] and [messageType], and beyond them nothing but
    [messageTypeId] and [messageTsUs]. *)
Theorem x18_framed_record_keys
    (msg : value) (formattedMsg : gmap string value) :
  formatLog msg = Returns formattedMsg ->
  required_keys ⊆ dom formattedMsg
  /\ dom formattedMsg ⊆ required_keys ∪ optional_keys.
Proof.
  unfold formatLog, pawsFormatLog, required_keys, optional_keys.
  destruct (get_prop (getMsgTs msg tsPaths) "sec") as [sec | e];
    destruct (get_prop (getMsgTs msg tsPaths) "usec") as [usec | e'];
    try discriminate.
  intros [= <-].
  destruct (is_nullish (getMsgTypeId msg typeIdPaths));
    destruct (truthy usec); rewrite !dom_insert_L, dom_empty_L;
    split; set_unfold; intros k; tauto.
Qed.


End FramingExtras.

(** ** The scopes of the client *)

Lemma split_nonempty (sep : Ascii.ascii) (s : string) : split sep s <> [].
Proof.
  destruct s as [| c rest]; cbn [split]; [discriminate |].
  destruct (Ascii.eqb c sep); [discriminate |].
  destruct (split sep rest); discriminate.
Qed.

Lemma join_cons (sep : Ascii.ascii) (part : string) (rest : list string) :
  rest <> [] ->
  join sep (part :: rest) = String.append part (String sep (join sep rest)).
Proof. destruct rest; [contradiction | reflexivity]. Qed.

Lemma join_split (sep : Ascii.ascii) (s : string) :
  join sep (split sep s) = s.
Proof.
  induction s as [| c rest IH]; [reflexivity |]. cbn [split].
  destruct (Ascii.eqb c sep) eqn:Hc.
  - apply Ascii.eqb_eq in Hc. subst c.
    rewrite join_cons by apply split_nonempty. rewrite IH. reflexivity.
  - pose proof (split_nonempty sep rest) as Hne.
    destruct (split sep rest) as [| hd tl]; [contradiction |].
    destruct tl as [| hd' tl'].
    + cbn [join] in *. rewrite IH. reflexivity.
    + rewrite join_cons by discriminate.
      rewrite join_cons in IH by discriminate.
      rewrite <- IH. reflexivity.
Qed.

Lemma split_parts_free (sep : Ascii.ascii) (s : string) :
  Forall (fun part : string => occurs sep part = false) (split sep s).
Proof.
  induction s as [| c rest IH]; cbn [split].
  - constructor; [reflexivity | constructor].
  - destruct (Ascii.eqb c sep) eqn:Hc.
    + constructor; [reflexivity | exact IH].
    + destruct (split sep rest) as [| hd tl].
      * constructor; [cbn; rewrite Hc; reflexivity | constructor].
      * inversion IH as [| ? ? Hhd Htl]; subst.
        constructor; [cbn; rewrite Hc, Hhd; reflexivity | exact Htl].
Qed.

(** X20: when the client is built, its subject is the collector's client
    id and its scopes are the pieces of the configured scope string between
    the commas: there is at least one, none holds a comma, and joined by
    commas they spell the configured string. *)
Theorem x20_client_scopes_spell_the_configured_string
    (Credentials : Type) (auth_fromJSON : string -> attempt Credentials)
    (this : collector) (env : environment)
    (client : auth_client Credentials) :
  build_client Credentials auth_fromJSON this env = Returns client ->
  subject Credentials client = clientId this
  /\ scopes Credentials client <> []
  /\ Forall (fun part : string => occurs ","%char part = false)
            (scopes Credentials client)
  /\ exists scope : string,
       paws_collector_param_string_1 env = Some scope
       /\ join ","%char (scopes Credentials client) = scope.
Proof.
  unfold build_client. destruct (secret this) as [k |]; [| discriminate].
  destruct (String.eqb k EmptyString); [discriminate |].
  destruct (auth_fromJSON k) as [keys | e]; [| discriminate].
  destruct (paws_collector_param_string_1 env) as [scope |]; [| discriminate].
  intros [= <-]. cbn [subject scopes].
  split; [reflexivity |]. split; [apply split_nonempty |].
  split; [apply split_parts_free |].
  exists scope. split; [reflexivity | apply join_split].
Qed.

(** ** Instances of the further properties *)

Lemma x1_missing_credentials_throw_before_fetch_witness :
  pawsGetLogs unit example_auth upstream_drained bare_collector example_env
    (frozen D0) quota_state
  = ([], Throws (Error "The $CREDS environment variable was not found!")).
Proof.
  apply (x1_missing_credentials_throw_before_fetch unit example_auth
           upstream_drained bare_collector example_env (frozen D0)
           quota_state).
  reflexivity.
Defined.

Lemma x2_client_setup_failure_throws_before_fetch_witness :
  pawsGetLogs unit failing_auth upstream_drained example_collector example_env
    (frozen D0) example_state = ([], Throws SyntaxError)
  /\ pawsGetLogs unit example_auth upstream_drained example_collector
       scopeless_env (frozen D0) example_state = ([], Throws TypeError).
Proof.
  split.
  - apply (proj1 (x2_client_setup_failure_throws_before_fetch unit
                    failing_auth upstream_drained example_collector
                    example_env (frozen D0) example_state "keys" eq_refl
                    ltac:(discriminate)) SyntaxError eq_refl).
  - apply (proj2 (x2_client_setup_failure_throws_before_fetch unit
                    example_auth upstream_drained example_collector
                    scopeless_env (frozen D0) example_state "keys" eq_refl
                    ltac:(discriminate)) tt eq_refl eq_refl).
Defined.

Lemma x5_other_api_error_is_passed_to_callback_witness :
  pawsGetLogs unit example_auth upstream_rate_limit example_collector
    example_env (frozen D0) example_state
  = ([build_params example_state], CallbackError rate_limit_error).
Proof.
  apply (x5_other_api_error_is_passed_to_callback unit example_auth
           upstream_rate_limit example_collector example_env (frozen D0)
           example_state example_client rate_limit_error
           "rateLimitExceeded" [dailyLimitExceeded]);
    try reflexivity.
  discriminate.
Defined.

Lemma x6_error_without_reasons_is_unhandled_witness :
  pawsGetLogs unit example_auth upstream_network_error example_collector
    example_env (frozen D0) example_state
  = ([build_params example_state], Unhandled TypeError).
Proof.
  apply (x6_error_without_reasons_is_unhandled unit example_auth
           upstream_network_error example_collector example_env (frozen D0)
           example_state example_client network_error);
    try reflexivity.
  left. reflexivity.
Defined.

Lemma x7_delay_is_new_state_interval_and_positive_witness :
  60 = poll_interval_sec
         (_getNextCollectionState example_collector (D0 + 65000) example_state)
  /\ 0 < 60.
Proof.
  destruct (x7_delay_is_new_state_interval_and_positive unit example_auth
              upstream_drained example_collector example_env
              (frozen (D0 + 65000)) example_state
              (_getNextCollectionState example_collector (D0 + 65000)
                 example_state)
              [VStr "event-1"] 60 eq_refl) as [Hd Hpos].
  split; [exact Hd | apply Hpos; reflexivity].
Defined.

Lemma x21_window_changes_only_when_drained_witness :
  exists client : auth_client unit,
    upstream_drained client (build_params example_state) [] (Some 3%nat)
    = Resolved [VStr "event-1"] None.
Proof.
  refine (proj2 (x21_window_changes_only_when_drained unit example_auth
                   upstream_drained example_collector example_env
                   (frozen (D0 + 65000)) example_state
                   (_getNextCollectionState example_collector (D0 + 65000)
                      example_state)
                   [VStr "event-1"] 60 eq_refl) _).
  left. vm_compute. discriminate.
Defined.

Lemma x9_quota_round_trip_witness :
  exists (st' : state) (r : Z),
    snd (pawsGetLogs unit example_auth upstream_daily_limit example_collector
           example_env (frozen D0) example_state) = Callback [] st' 900
    /\ apiQuotaResetDate st' = Some (Iso r)
    /\ D0 < r
    /\ (D0 + 900000 < r ->
        pawsGetLogs unit example_auth upstream_drained example_collector
          example_env (frozen (D0 + 900000)) st' = ([], Callback [] st' 900))
    /\ (r <= D0 + 86400000 ->
        fst (pawsGetLogs unit example_auth upstream_drained example_collector
               example_env (frozen (D0 + 86400000)) st')
        = [build_params example_state]).
Proof.
  destruct (x9_quota_round_trip unit example_auth upstream_daily_limit
              example_collector example_env (frozen D0) example_state
              example_client daily_limit_error [] eq_refl eq_refl eq_refl
              eq_refl) as (st' & r & Hrun & Hq & Hlt & Hheld & Hfree).
  exists st', r. split; [exact Hrun |]. split; [exact Hq |].
  split; [exact Hlt |]. split.
  - intros H. apply Hheld. exact H.
  - intros H. apply Hfree. exact H.
Defined.

Lemma x11_next_request_resumes_or_restarts_witness :
  exists (st' : state) (delay : Z),
    snd (pawsGetLogs unit example_auth upstream_more_pages example_collector
           example_env (frozen D0) example_state)
      = Callback [VStr "event-1"] st' delay
    /\ fst (pawsGetLogs unit example_auth upstream_drained example_collector
              example_env (frozen (D0 + 1000)) st') = [build_params st']
    /\ pageToken (build_params st') = Some "page-2"
    /\ startTime (build_params st') = Some (Iso D0)
    /\ endTime (build_params st') = Some (Iso (D0 + 60000)).
Proof.
  destruct (x11_next_request_resumes_or_restarts unit example_auth
              upstream_more_pages example_collector example_env (frozen D0)
              example_state example_client [VStr "event-1"] (Some "page-2")
              eq_refl eq_refl eq_refl)
    as (st' & delay & Hrun & Hnext & Htok & Hwin).
  exists st', delay. split; [exact Hrun |].
  split; [apply Hnext |]. split; [exact Htok |].
  apply Hwin. discriminate.
Defined.

Lemma x12_unparsable_window_is_never_repaired_witness :
  Forall (fun st' : state => Moment.parse (until st') = None)
         (run unit example_auth example_collector garbled_env garbled_state
              erratic_cycles).
Proof.
  apply (x12_unparsable_window_is_never_repaired unit example_auth
           example_collector garbled_env erratic_cycles garbled_state).
  reflexivity.
Defined.

Lemma x13_windows_leave_no_gap_witness :
  gapless example_state
    (run unit example_auth example_collector example_env example_state
         erratic_cycles).
Proof.
  apply (x13_windows_leave_no_gap unit example_auth example_collector
           example_env erratic_cycles example_state D0 (D0 + 60000)).
  - vm_compute. discriminate.
  - reflexivity.
  - reflexivity.
  - vm_compute. discriminate.
Defined.

Lemma x14_lagging_collector_polls_again_at_once_witness :
  exists nu : Z,
    until (_getNextCollectionState example_collector (D0 + 30 * 3600000)
             example_state) = Some (Iso nu)
    /\ nu + 3600000 <= D0 + 30 * 3600000
    /\ poll_interval_sec
         (_getNextCollectionState example_collector (D0 + 30 * 3600000)
            example_state) = 1.
Proof.
  destruct (x14_lagging_collector_polls_again_at_once example_collector
              (D0 + 30 * 3600000) (D0 + 60000) example_state eq_refl)
    as (nu & _ & Hu & _ & Hend & Hd).
  - vm_compute. reflexivity.
  - vm_compute. discriminate.
  - exists nu. split; [exact Hu |]. split; [exact Hend | exact Hd].
Defined.

Lemma x15_caught_up_collector_waits_full_interval_witness :
  since (_getNextCollectionState example_collector (D0 + 30000) example_state)
    = Some (Iso (D0 + 30000))
  /\ until (_getNextCollectionState example_collector (D0 + 30000)
              example_state) = Some (Iso (D0 + 30000 + 60 * 1000))
  /\ poll_interval_sec
       (_getNextCollectionState example_collector (D0 + 30000) example_state)
     = 60.
Proof.
  apply (x15_caught_up_collector_waits_full_interval example_collector
           (D0 + 30000) (D0 + 60000) example_state eq_refl).
  - vm_compute. discriminate.
  - vm_compute. discriminate.
Defined.

Lemma x16_drained_window_advances_witness :
  exists nu : Z,
    since (_getNextCollectionState example_collector (D0 + 65000)
             example_state) = until example_state
    /\ until (_getNextCollectionState example_collector (D0 + 65000)
                example_state) = Some (Iso nu)
    /\ D0 + 60000 < nu.
Proof.
  destruct (x16_drained_window_advances example_collector (D0 + 65000)
              (D0 + 60000) example_state eq_refl)
    as (nu & Hs & Hu & Hlt & _).
  - vm_compute. discriminate.
  - vm_compute. reflexivity.
  - exists nu. split; [exact Hs |]. split; [exact Hu | exact Hlt].
Defined.

Lemma x17_first_request_after_initialization_witness :
  fst (pawsGetLogs unit example_auth upstream_drained example_collector
         example_env (frozen (D0 + 1000))
         {| application := login;
            since := Some (Iso (D0 - 300000));
            until := Some (Iso (D0 - 240000));
            nextPage := None;
            apiQuotaResetDate := None;
            poll_interval_sec := 1 |})
  = [{| pageToken := None;
        startTime := Some (Iso (D0 - 5 * 60000));
        endTime := Some (Iso (D0 - 5 * 60000 + 60 * 1000));
        userKey := "all";
        applicationName := login |}].
Proof.
  refine (proj2 (proj2 (x17_first_request_after_initialization unit
                          example_auth example_collector example_env D0
                          (D0 - 5 * 60000) _ 1 _ example_client _ eq_refl _
                          eq_refl)) upstream_drained (frozen (D0 + 1000))).
  - right. split; reflexivity.
  - left. reflexivity.
Defined.

Lemma x18_framed_record_keys_witness :
  exists formattedMsg : gmap string value,
    pawsFormatLog lookup_fails_ts lookup_fails_typeId example_stringify
      example_stringify (VObj [("actor", VStr "someone")])
    = Returns formattedMsg
    /\ required_keys ⊆ dom formattedMsg
    /\ dom formattedMsg ⊆ required_keys ∪ optional_keys.
Proof.
  eexists. split; [reflexivity |].
  apply (x18_framed_record_keys lookup_fails_ts lookup_fails_typeId
           example_stringify example_stringify
           (VObj [("actor", VStr "someone")])).
  reflexivity.
Defined.

Lemma x20_client_scopes_spell_the_configured_string_witness :
  scopes unit example_client <> []
  /\ join ","%char (scopes unit example_client) = "scope.a,scope.b".
Proof.
  destruct (x20_client_scopes_spell_the_configured_string unit example_auth
              example_collector example_env example_client eq_refl)
    as (_ & Hne & _ & scope & Hscope & Hjoin).
  split; [exact Hne |].
  injection Hscope as <-. exact Hjoin.
Defined.
